(** * gem-server: authentication gateway and CDP proxy

    A shallow embedding of [gem/routers/auth.py] and [gem/routers/cdp.py]
    together with the library calls they rely on ([urllib.parse],
    [cachelib.SimpleCache], [json.loads], [re.sub] for the one pattern the
    proxy compiles), followed by the properties of the two routers.

    Conventions.
    - A Python [str] is a [string]; the model is exact on ASCII text.
      Percent-escapes are decoded to the bytes they denote (Python goes on to
      read those bytes as UTF-8).
    - Time is counted in whole seconds ([Z]), the unit of the TTLs and of
      the expiry claim; [now] is the integer part of [time.time()].  One
      call of the service reads the clock once.
    - What leaves the process is recorded: the calls of [jwt.decode], the
      requests of the HTTP client, what is done on the two websocket ends.
      What the outside answers (PyJWT, the upstream endpoint, the frames
      that arrive) is an argument of the model. *)

From Stdlib Require Import String Ascii List ZArith Bool Lia Arith DecimalString.
From Stdlib Require Import Permutation DecimalNat.
Import ListNotations.
Open Scope string_scope.
Open Scope list_scope.
Set Warnings "-abstract-large-number".

(* ================================================================== *)
(** * Part I: definitions                                              *)
(* ================================================================== *)

(** ** Python strings *)

Module PyStr.

Definition dquote : ascii := "034"%char.

(** [q s] is [s] with every apostrophe turned into a double quote; it only
    serves to write JSON and quoted text readably in examples. *)
Fixpoint q (s : string) : string :=
  match s with
  | EmptyString => EmptyString
  | String c r => String (if Ascii.eqb c "'"%char then dquote else c) (q r)
  end.

(** [c in chars] *)
Fixpoint mem (c : ascii) (chars : string) : bool :=
  match chars with
  | EmptyString => false
  | String a r => Ascii.eqb a c || mem c r
  end.

Definition truthy (s : string) : bool :=
  match s with EmptyString => false | _ => true end.

Definition is_upper (c : ascii) : bool :=
  let n := nat_of_ascii c in (65 <=? n)%nat && (n <=? 90)%nat.

Definition is_lower (c : ascii) : bool :=
  let n := nat_of_ascii c in (97 <=? n)%nat && (n <=? 122)%nat.

Definition is_digit (c : ascii) : bool :=
  let n := nat_of_ascii c in (48 <=? n)%nat && (n <=? 57)%nat.

Definition is_alpha (c : ascii) : bool := is_upper c || is_lower c.

Definition lower_char (c : ascii) : ascii :=
  if is_upper c then ascii_of_nat (nat_of_ascii c + 32) else c.

(** [s.lower()] *)
Fixpoint lower (s : string) : string :=
  match s with
  | EmptyString => EmptyString
  | String c r => String (lower_char c) (lower r)
  end.

(** Characters [str.split()] and [str.strip()] treat as white space. *)
Definition is_space (c : ascii) : bool :=
  let n := nat_of_ascii c in
  ((9 <=? n)%nat && (n <=? 13)%nat) || ((28 <=? n)%nat && (n <=? 32)%nat).

(** [s.startswith(p)] *)
Definition startswith (p s : string) : bool := String.prefix p s.

(** [s[len(p):]] when [s.startswith(p)] *)
Fixpoint strip_prefix (p s : string) : option string :=
  match p, s with
  | EmptyString, _ => Some s
  | String a p', String b s' =>
      if Ascii.eqb a b then strip_prefix p' s' else None
  | String _ _, EmptyString => None
  end.

(** [needle in hay] *)
Fixpoint contains (needle hay : string) : bool :=
  String.prefix needle hay ||
  match hay with
  | EmptyString => false
  | String _ r => contains needle r
  end.

(** The longest prefix of [s] whose characters satisfy [p], and the rest. *)
Fixpoint span (p : ascii -> bool) (s : string) : string * string :=
  match s with
  | EmptyString => (EmptyString, EmptyString)
  | String c r =>
      if p c then let (h, t) := span p r in (String c h, t)
      else (EmptyString, s)
  end.

(** [s.replace(a, empty)] for a one-character [a] *)
Fixpoint remove (a : ascii) (s : string) : string :=
  match s with
  | EmptyString => EmptyString
  | String c r => if Ascii.eqb c a then remove a r else String c (remove a r)
  end.

(** [s.replace(a, b)] for one-character [a] and [b] *)
Fixpoint replace (a b : ascii) (s : string) : string :=
  match s with
  | EmptyString => EmptyString
  | String c r => String (if Ascii.eqb c a then b else c) (replace a b r)
  end.

(** [s.split(sep, 1)] for a one-character [sep]: [None] when [sep] does not
    occur (Python then returns the one-element list [[s]]). *)
Fixpoint split1 (sep : ascii) (s : string) : option (string * string) :=
  match s with
  | EmptyString => None
  | String c r =>
      if Ascii.eqb c sep then Some (EmptyString, r)
      else match split1 sep r with
           | Some (h, t) => Some (String c h, t)
           | None => None
           end
  end.

(** [s.split(sep)] for a one-character [sep] *)
Fixpoint split (sep : ascii) (s : string) : list string :=
  match s with
  | EmptyString => [EmptyString]
  | String c r =>
      if Ascii.eqb c sep then EmptyString :: split sep r
      else match split sep r with
           | h :: t => String c h :: t
           | [] => [String c EmptyString]
           end
  end.

(** [s.split(maxsplit=1)]: white space is skipped, the first word is cut
    off, white space is skipped again and what is left, if anything, is
    kept whole (trailing white space included). *)
Definition split_ws_max1 (s : string) : list string :=
  let s1 := snd (span is_space s) in
  match s1 with
  | EmptyString => []
  | _ =>
      let (word, rest) := span (fun c => negb (is_space c)) s1 in
      match snd (span is_space rest) with
      | EmptyString => [word]
      | tail => [word; tail]
      end
  end.

End PyStr.

(** ** urllib.parse *)

Module Urllib.
Import PyStr.

Record SplitResult := {
  scheme : string;
  netloc : string;
  path : string;
  query : string;
  fragment : string
}.

Definition scheme_chars : string :=
  "abcdefghijklmnopqrstuvwxyzABCDEFGHIJKLMNOPQRSTUVWXYZ0123456789+-.".

Definition is_c0_or_space (c : ascii) : bool := (nat_of_ascii c <=? 32)%nat.

Fixpoint lstrip_c0 (s : string) : string :=
  match s with
  | EmptyString => EmptyString
  | String c r => if is_c0_or_space c then lstrip_c0 r else s
  end.

Fixpoint all_chars (p : ascii -> bool) (s : string) : bool :=
  match s with
  | EmptyString => true
  | String c r => p c && all_chars p r
  end.

(** [_splitnetloc(url, 2)] on a [url] whose first two characters were
    already dropped. *)
Definition _splitnetloc (url : string) : string * string :=
  span (fun c => negb (mem c "/?#")) url.

(** [urlsplit(url)].  Python raises [ValueError] when the authority holds
    square brackets that do not enclose an IP literal; the routers do not
    catch it, and the model gives the components of every other URL. *)
Definition urlsplit (url0 : string) : SplitResult :=
  let url := lstrip_c0 url0 in
  let url := remove "010"%char (remove "013"%char (remove "009"%char url)) in
  let '(sch, url) :=
    match split1 ":"%char url, url with
    | Some (pre, post), String c0 _ =>
        if truthy pre && is_alpha c0 && all_chars (fun c => mem c scheme_chars) pre
        then (lower pre, post) else (EmptyString, url)
    | _, _ => (EmptyString, url)
    end in
  let '(nl, url) :=
    match strip_prefix "//" url with
    | Some r => _splitnetloc r
    | None => (EmptyString, url)
    end in
  let '(url, frag) :=
    match split1 "#"%char url with
    | Some (a, b) => (a, b)
    | None => (url, EmptyString)
    end in
  let '(url, qry) :=
    match split1 "?"%char url with
    | Some (a, b) => (a, b)
    | None => (url, EmptyString)
    end in
  {| scheme := sch; netloc := nl; path := url; query := qry; fragment := frag |}.

(** [urlparse(url)]: [urlsplit] and then a split of the path's parameters,
    which touches neither [netloc] nor [query]. *)
Definition urlparse (url : string) : SplitResult := urlsplit url.

Definition hexval (c : ascii) : option nat :=
  let n := nat_of_ascii c in
  if is_digit c then Some (n - 48)%nat
  else if (65 <=? n)%nat && (n <=? 70)%nat then Some (n - 55)%nat
  else if (97 <=? n)%nat && (n <=? 102)%nat then Some (n - 87)%nat
  else None.

(** [unquote(s)]: every [%XY] with two hexadecimal digits becomes the byte
    it denotes, everything else stays. *)
Fixpoint unquote (s : string) : string :=
  match s with
  | EmptyString => EmptyString
  | String c r =>
      if Ascii.eqb c "%"%char then
        match r with
        | String h (String l r2) =>
            match hexval h, hexval l with
            | Some a, Some b => String (ascii_of_nat (16 * a + b)) (unquote r2)
            | _, _ => String c (unquote r)
            end
        | _ => String c (unquote r)
        end
      else String c (unquote r)
  end.

(** One field of a query string, as the loop body of [parse_qsl] treats
    it. *)
Definition parse_field (keep_blank_values : bool) (name_value : string)
  : option (string * string) :=
  if negb (truthy name_value) then None
  else
    let nv :=
      match split1 "="%char name_value with
      | Some (n, v) => Some (n, v)
      | None => if keep_blank_values then Some (name_value, EmptyString) else None
      end in
    match nv with
    | None => None
    | Some (n, v) =>
        if truthy v || keep_blank_values
        then Some (unquote (replace "+"%char " "%char n),
                   unquote (replace "+"%char " "%char v))
        else None
    end.

Fixpoint collect {A B} (f : A -> option B) (l : list A) : list B :=
  match l with
  | [] => []
  | x :: r => match f x with Some y => y :: collect f r | None => collect f r end
  end.

(** [parse_qsl(qs, keep_blank_values)] with the separator ["&"] *)
Definition parse_qsl (keep_blank_values : bool) (qs : string)
  : list (string * string) :=
  let query_args := if truthy qs then split "&"%char qs else [] in
  collect (parse_field keep_blank_values) query_args.

(** A [dict] from names to lists of values, in insertion order. *)
Definition qs_dict := list (string * list string).

Fixpoint dict_append (d : qs_dict) (name value : string) : qs_dict :=
  match d with
  | [] => [(name, [value])]
  | (k, vs) :: r =>
      if String.eqb k name then (k, vs ++ [value]) :: r
      else (k, vs) :: dict_append r name value
  end.

Fixpoint dict_get (d : qs_dict) (name : string) : option (list string) :=
  match d with
  | [] => None
  | (k, vs) :: r => if String.eqb k name then Some vs else dict_get r name
  end.

(** [parse_qs(qs)] *)
Definition parse_qs (qs : string) : qs_dict :=
  fold_left (fun d nv => dict_append d (fst nv) (snd nv)) (parse_qsl false qs) [].

End Urllib.

(** ** cachelib.SimpleCache *)

Module SimpleCache.

Section WithValue.
Context {V : Type}.

(** [_cache] is the dictionary of the cache, key to [(expires, value)],
    in insertion order; [expires = 0] means the entry never expires. *)
Record t := {
  _cache : list (string * (Z * V));
  _threshold : nat;
  default_timeout : Z
}.

(** [SimpleCache(threshold, default_timeout)]; a zero threshold falls
    back to 500 ([threshold or 500]). *)
Definition init (threshold : nat) (timeout : Z) : t :=
  {| _cache := [];
     _threshold := match threshold with O => 500%nat | _ => threshold end;
     default_timeout := timeout |}.

(** [SimpleCache()] *)
Definition new : t := init 500 300.

Fixpoint lookup (d : list (string * (Z * V))) (key : string) : option (Z * V) :=
  match d with
  | [] => None
  | (k, e) :: r => if String.eqb k key then Some e else lookup r key
  end.

(** [d[key] = e] *)
Fixpoint store (d : list (string * (Z * V))) (key : string) (e : Z * V)
  : list (string * (Z * V)) :=
  match d with
  | [] => [(key, e)]
  | (k, e0) :: r =>
      if String.eqb k key then (k, e) :: r else (k, e0) :: store r key e
  end.

(** [d.pop(key, None)] *)
Fixpoint pop (d : list (string * (Z * V))) (key : string)
  : list (string * (Z * V)) :=
  match d with
  | [] => []
  | (k, e0) :: r => if String.eqb k key then r else (k, e0) :: pop r key
  end.

Definition over (threshold : nat) (d : list (string * (Z * V))) : bool :=
  (threshold <? List.length d)%nat.

Definition _over_threshold (c : t) : bool := over (_threshold c) (_cache c).

Definition _remove_expired (c : t) (now : Z) : t :=
  {| _cache := filter (fun kv => negb (fst (snd kv) <? now)%Z) (_cache c);
     _threshold := _threshold c;
     default_timeout := default_timeout c |}.

(** [sorted(items, key=expires)]: stable, earliest deadline first. *)
Fixpoint insert_by_expiry (x : string * (Z * V)) (l : list (string * (Z * V)))
  : list (string * (Z * V)) :=
  match l with
  | [] => [x]
  | y :: r =>
      if (fst (snd x) <=? fst (snd y))%Z then x :: l
      else y :: insert_by_expiry x r
  end.

Definition sorted_by_expiry (l : list (string * (Z * V)))
  : list (string * (Z * V)) :=
  fold_right insert_by_expiry [] l.

(** The loop of [_remove_older]: pop the keys in order and stop as soon
    as the cache is no longer over its threshold. *)
Fixpoint pop_in_order (keys : list string) (threshold : nat)
         (d : list (string * (Z * V))) : list (string * (Z * V)) :=
  match keys with
  | [] => d
  | k :: ks =>
      let d' := pop d k in
      if negb (over threshold d') then d' else pop_in_order ks threshold d'
  end.

Definition _remove_older (c : t) : t :=
  {| _cache := pop_in_order (map fst (sorted_by_expiry (_cache c)))
                            (_threshold c) (_cache c);
     _threshold := _threshold c;
     default_timeout := default_timeout c |}.

Definition _prune (c : t) (now : Z) : t :=
  let c1 := if _over_threshold c then _remove_expired c now else c in
  if _over_threshold c1 then _remove_older c1 else c1.

Definition _normalize_timeout (c : t) (timeout : option Z) (now : Z) : Z :=
  let timeout := match timeout with Some x => x | None => default_timeout c end in
  if (timeout >? 0)%Z then (now + timeout)%Z else timeout.

(** [cache.get(key)] *)
Definition get (c : t) (key : string) (now : Z) : option V :=
  match lookup (_cache c) key with
  | Some (expires, value) =>
      if (expires =? 0)%Z || (expires >? now)%Z then Some value else None
  | None => None
  end.

(** [cache.set(key, value, timeout)] *)
Definition set (c : t) (key : string) (value : V) (timeout : option Z) (now : Z)
  : t :=
  let expires := _normalize_timeout c timeout now in
  let c1 := _prune c now in
  {| _cache := store (_cache c1) key (expires, value);
     _threshold := _threshold c1;
     default_timeout := default_timeout c1 |}.

End WithValue.

Arguments t V : clear implicits.

End SimpleCache.

(** ** JSON values, as [json.loads] builds them *)

Module Json.

(** A float is kept as the decimal [mantissa * 10 ^ exponent] it was
    written as; [NaN], [Infinity] and [-Infinity] keep their name. *)
#[warnings="-register-all"]
Inductive value :=
| JNull
| JBool (b : bool)
| JInt (n : Z)
| JFloat (mantissa exponent : Z)
| JNonFinite (name : string)
| JStr (s : string)
| JArr (items : list value)
| JObj (members : list (string * value)).

Definition dict := list (string * value).

(** [d.get(key)]: [None] when the key is missing. *)
Fixpoint dict_get (d : dict) (key : string) : option value :=
  match d with
  | [] => None
  | (k, v) :: r => if String.eqb k key then Some v else dict_get r key
  end.

(** [d[key] = v] *)
Fixpoint dict_set (d : dict) (key : string) (v : value) : dict :=
  match d with
  | [] => [(key, v)]
  | (k, v0) :: r =>
      if String.eqb k key then (k, v) :: r else (k, v0) :: dict_set r key v
  end.

(** [bool(v)] *)
Definition truthy (v : value) : bool :=
  match v with
  | JNull => false
  | JBool b => b
  | JInt n => negb (n =? 0)%Z
  | JFloat m _ => negb (m =? 0)%Z
  | JNonFinite _ => true
  | JStr s => PyStr.truthy s
  | JArr l => match l with [] => false | _ => true end
  | JObj l => match l with [] => false | _ => true end
  end.

(** [isinstance(v, int)], with the integer it stands for: [bool] is a
    subclass of [int]. *)
Definition as_int (v : value) : option Z :=
  match v with
  | JInt n => Some n
  | JBool true => Some 1%Z
  | JBool false => Some 0%Z
  | _ => None
  end.

(** *** json.loads *)

Definition is_ws (c : ascii) : bool :=
  let n := nat_of_ascii c in
  (n =? 32)%nat || (n =? 9)%nat || (n =? 10)%nat || (n =? 13)%nat.

Fixpoint skip_ws (s : string) : string :=
  match s with
  | String c r => if is_ws c then skip_ws r else s
  | EmptyString => EmptyString
  end.

Definition hexdigit (c : ascii) : option nat :=
  let n := nat_of_ascii c in
  if PyStr.is_digit c then Some (n - 48)%nat
  else if (65 <=? n)%nat && (n <=? 70)%nat then Some (n - 55)%nat
  else if (97 <=? n)%nat && (n <=? 102)%nat then Some (n - 87)%nat
  else None.

Definition hex4 (a b c d : ascii) : option nat :=
  match hexdigit a, hexdigit b, hexdigit c, hexdigit d with
  | Some x, Some y, Some z, Some w => Some (4096 * x + 256 * y + 16 * z + w)%nat
  | _, _, _, _ => None
  end.

(** The UTF-8 bytes of a code point. *)
Definition utf8 (cp : nat) : string :=
  let byte n := ascii_of_nat n in
  if (cp <? 128)%nat then String (byte cp) EmptyString
  else if (cp <? 2048)%nat then
    String (byte (192 + cp / 64)) (String (byte (128 + cp mod 64)) EmptyString)
  else if (cp <? 65536)%nat then
    String (byte (224 + cp / 4096))
      (String (byte (128 + (cp / 64) mod 64))
         (String (byte (128 + cp mod 64)) EmptyString))
  else
    String (byte (240 + cp / 262144))
      (String (byte (128 + (cp / 4096) mod 64))
         (String (byte (128 + (cp / 64) mod 64))
            (String (byte (128 + cp mod 64)) EmptyString))).

Definition unescape (e : ascii) : option ascii :=
  if Ascii.eqb e PyStr.dquote then Some PyStr.dquote
  else if Ascii.eqb e "\"%char then Some "\"%char
  else if Ascii.eqb e "/"%char then Some "/"%char
  else if Ascii.eqb e "b"%char then Some "008"%char
  else if Ascii.eqb e "f"%char then Some "012"%char
  else if Ascii.eqb e "n"%char then Some "010"%char
  else if Ascii.eqb e "r"%char then Some "013"%char
  else if Ascii.eqb e "t"%char then Some "009"%char
  else None.

Definition is_high_surrogate (cp : nat) : bool :=
  (55296 <=? cp)%nat && (cp <=? 56319)%nat.

Definition is_low_surrogate (cp : nat) : bool :=
  (56320 <=? cp)%nat && (cp <=? 57343)%nat.

Definition prepend (h : string) (r : option (string * string))
  : option (string * string) :=
  match r with
  | Some (body, rest) => Some ((h ++ body)%string, rest)
  | None => None
  end.

(** The text after an opening quote, up to the closing one, with the
    escapes resolved (strict mode: no raw control character). *)
Fixpoint scanstring (s : string) : option (string * string) :=
  match s with
  | EmptyString => None
  | String c r =>
      if Ascii.eqb c PyStr.dquote then Some (EmptyString, r)
      else if Ascii.eqb c "\"%char then
        match r with
        | EmptyString => None
        | String e r2 =>
            if Ascii.eqb e "u"%char then
              match r2 with
              | String a (String b (String c' (String d r3))) =>
                  match hex4 a b c' d with
                  | None => None
                  | Some hi =>
                      match r3 with
                      | String b1 (String b2 (String a' (String b' (String c'' (String d' r4))))) =>
                          match hex4 a' b' c'' d' with
                          | Some lo =>
                              if is_high_surrogate hi && Ascii.eqb b1 "\"%char
                                 && Ascii.eqb b2 "u"%char && is_low_surrogate lo
                              then prepend
                                     (utf8 (65536 + (hi - 55296) * 1024 + (lo - 56320)))
                                     (scanstring r4)
                              else prepend (utf8 hi) (scanstring r3)
                          | None => prepend (utf8 hi) (scanstring r3)
                          end
                      | _ => prepend (utf8 hi) (scanstring r3)
                      end
                  end
              | _ => None
              end
            else
              match unescape e with
              | Some ch => prepend (String ch EmptyString) (scanstring r2)
              | None => None
              end
        end
      else if (nat_of_ascii c <? 32)%nat then None
      else prepend (String c EmptyString) (scanstring r)
  end.

Fixpoint digits_to_Z (acc : Z) (s : string) : Z :=
  match s with
  | EmptyString => acc
  | String c r => digits_to_Z (10 * acc + Z.of_nat (nat_of_ascii c - 48)) r
  end.

(** A number: an optional minus, then [0] or a digit string that does not
    start with [0]; an optional fraction (a dot and at least one digit); an
    optional exponent ([e] or [E], an optional sign, at least one digit).
    With a fraction or an exponent the number is a float. *)
Definition scan_number (s : string) : option (value * string) :=
  let '(neg, s1) :=
    match s with
    | String c r => if Ascii.eqb c "-"%char then (true, r) else (false, s)
    | EmptyString => (false, s)
    end in
  let integer :=
    match s1 with
    | String c r =>
        if Ascii.eqb c "0"%char then Some (String c EmptyString, r)
        else if PyStr.is_digit c then Some (PyStr.span PyStr.is_digit s1)
        else None
    | EmptyString => None
    end in
  match integer with
  | None => None
  | Some (int_digits, s2) =>
      let '(frac, s3) :=
        match s2 with
        | String c r =>
            if Ascii.eqb c "."%char then
              match PyStr.span PyStr.is_digit r with
              | (EmptyString, _) => (None, s2)
              | (ds, r') => (Some ds, r')
              end
            else (None, s2)
        | EmptyString => (None, s2)
        end in
      let '(expo, s4) :=
        match s3 with
        | String c r =>
            if Ascii.eqb c "e"%char || Ascii.eqb c "E"%char then
              let '(eneg, r1) :=
                match r with
                | String sg r' =>
                    if Ascii.eqb sg "-"%char then (true, r')
                    else if Ascii.eqb sg "+"%char then (false, r')
                    else (false, r)
                | EmptyString => (false, r)
                end in
              match PyStr.span PyStr.is_digit r1 with
              | (EmptyString, _) => (None, s3)
              | (ds, r') =>
                  (Some (if eneg then (- digits_to_Z 0 ds)%Z else digits_to_Z 0 ds), r')
              end
            else (None, s3)
        | EmptyString => (None, s3)
        end in
      let sign z := if neg then (- z)%Z else z in
      match frac, expo with
      | None, None => Some (JInt (sign (digits_to_Z 0 int_digits)), s4)
      | _, _ =>
          let fd := match frac with Some ds => ds | None => EmptyString end in
          let ex := match expo with Some e => e | None => 0%Z end in
          Some (JFloat (sign (digits_to_Z 0 (int_digits ++ fd)%string))
                       (ex - Z.of_nat (String.length fd)), s4)
      end
  end.

Inductive parsed (A : Type) :=
| Parsed (a : A) (rest : string)
| Malformed
| Exhausted.
Arguments Parsed {A} a rest.
Arguments Malformed {A}.
Arguments Exhausted {A}.

Definition literal (word : string) (v : value) (s : string) : parsed value :=
  match PyStr.strip_prefix word s with
  | Some rest => Parsed v rest
  | None => Malformed
  end.

(** [scan_once] and the loops of [JSONObject] and [JSONArray].
    [scan_members] and [scan_items] start at a key, respectively at an
    item, white space already skipped. *)
Fixpoint scan_once (fuel : nat) (s : string) : parsed value :=
  match fuel with
  | O => Exhausted
  | S fuel' =>
      match s with
      | EmptyString => Malformed
      | String c r =>
          if Ascii.eqb c PyStr.dquote then
            match scanstring r with
            | Some (str, rest) => Parsed (JStr str) rest
            | None => Malformed
            end
          else if Ascii.eqb c "{"%char then
            match skip_ws r with
            | String c1 r1 =>
                if Ascii.eqb c1 "}"%char then Parsed (JObj []) r1
                else
                  match scan_members fuel' [] (String c1 r1) with
                  | Parsed d rest => Parsed (JObj d) rest
                  | Malformed => Malformed
                  | Exhausted => Exhausted
                  end
            | EmptyString => Malformed
            end
          else if Ascii.eqb c "["%char then
            match skip_ws r with
            | String c1 r1 =>
                if Ascii.eqb c1 "]"%char then Parsed (JArr []) r1
                else
                  match scan_items fuel' (String c1 r1) with
                  | Parsed l rest => Parsed (JArr l) rest
                  | Malformed => Malformed
                  | Exhausted => Exhausted
                  end
            | EmptyString => Malformed
            end
          else if Ascii.eqb c "n"%char then literal "null" JNull s
          else if Ascii.eqb c "t"%char then literal "true" (JBool true) s
          else if Ascii.eqb c "f"%char then literal "false" (JBool false) s
          else
            match scan_number s with
            | Some (v, rest) => Parsed v rest
            | None =>
                if Ascii.eqb c "N"%char then literal "NaN" (JNonFinite "NaN") s
                else if Ascii.eqb c "I"%char
                     then literal "Infinity" (JNonFinite "Infinity") s
                else if Ascii.eqb c "-"%char
                     then literal "-Infinity" (JNonFinite "-Infinity") s
                else Malformed
            end
      end
  end

with scan_members (fuel : nat) (acc : dict) (s : string) : parsed dict :=
  match fuel with
  | O => Exhausted
  | S fuel' =>
      match s with
      | String c r =>
          if Ascii.eqb c PyStr.dquote then
            match scanstring r with
            | None => Malformed
            | Some (key, r1) =>
                match skip_ws r1 with
                | String c2 r2 =>
                    if Ascii.eqb c2 ":"%char then
                      match scan_once fuel' (skip_ws r2) with
                      | Parsed v r3 =>
                          let acc' := dict_set acc key v in
                          match skip_ws r3 with
                          | String c4 r4 =>
                              if Ascii.eqb c4 "}"%char then Parsed acc' r4
                              else if Ascii.eqb c4 ","%char
                                   then scan_members fuel' acc' (skip_ws r4)
                              else Malformed
                          | EmptyString => Malformed
                          end
                      | Malformed => Malformed
                      | Exhausted => Exhausted
                      end
                    else Malformed
                | EmptyString => Malformed
                end
            end
          else Malformed
      | EmptyString => Malformed
      end
  end

with scan_items (fuel : nat) (s : string) : parsed (list value) :=
  match fuel with
  | O => Exhausted
  | S fuel' =>
      match scan_once fuel' s with
      | Parsed v r1 =>
          match skip_ws r1 with
          | String c2 r2 =>
              if Ascii.eqb c2 "]"%char then Parsed [v] r2
              else if Ascii.eqb c2 ","%char then
                match scan_items fuel' (skip_ws r2) with
                | Parsed l rest => Parsed (v :: l) rest
                | Malformed => Malformed
                | Exhausted => Exhausted
                end
              else Malformed
          | EmptyString => Malformed
          end
      | Malformed => Malformed
      | Exhausted => Exhausted
      end
  end.

(** [json.loads(s)]: one value, white space around it, nothing else.
    [Malformed] stands for [JSONDecodeError]. *)
Definition loads_with (fuel : nat) (s : string) : parsed value :=
  match scan_once fuel (skip_ws s) with
  | Parsed v rest =>
      match skip_ws rest with
      | EmptyString => Parsed v EmptyString
      | _ => Malformed
      end
  | Malformed => Malformed
  | Exhausted => Exhausted
  end.

Definition loads (s : string) : parsed value :=
  loads_with (2 * String.length s + 2) s.

End Json.

(** ** gem/routers/auth.py *)

Module Auth.

(** *** 1. Configuration *)

Record AuthConfig := {
  jwt_algorithms : list string;
  default_ticket_ttl : Z;
  default_cache_ttl : Z;
  jwt_public_key : option string;
  ticket_ttl : Z
}.

(** [s.strip()] followed by the sign and digits that [int(s)] reads:
    decimal digits, single underscores between them. *)
Fixpoint digits_value (acc : Z) (after_digit : bool) (s : string) : option Z :=
  match s with
  | EmptyString => if after_digit then Some acc else None
  | String c r =>
      if PyStr.is_digit c
      then digits_value (10 * acc + Z.of_nat (nat_of_ascii c - 48)) true r
      else if Ascii.eqb c "_"%char && after_digit
           then match r with
                | String d _ => if PyStr.is_digit d then digits_value acc false r else None
                | EmptyString => None
                end
           else None
  end.

Fixpoint rstrip_rev (s : list ascii) : list ascii :=
  match s with
  | c :: r => if PyStr.is_space c then rstrip_rev r else s
  | [] => []
  end.

Definition strip (s : string) : string :=
  let l := list_ascii_of_string (snd (PyStr.span PyStr.is_space s)) in
  string_of_list_ascii (rev (rstrip_rev (rev l))).

(** [int(raw)]: [None] stands for [ValueError]. *)
Definition py_int (raw : string) : option Z :=
  match strip raw with
  | String c r =>
      if Ascii.eqb c "-"%char then option_map Z.opp (digits_value 0 false r)
      else if Ascii.eqb c "+"%char then digits_value 0 false r
      else digits_value 0 false (String c r)
  | EmptyString => None
  end.

(** [_load_jwt_public_key]; [b64decode_utf8] is
    [base64.b64decode(..).decode("utf-8")], [None] when either step
    raises. *)
Definition _load_jwt_public_key (b64decode_utf8 : string -> option string)
           (environ : string -> option string) (env_var : string)
  : option string :=
  match environ env_var with
  | None => None
  | Some b64_encoded_key =>
      if negb (PyStr.truthy b64_encoded_key) then None
      else b64decode_utf8 b64_encoded_key
  end.

Definition _load_ticket_ttl (default_ticket_ttl : Z)
           (environ : string -> option string) (env_var : string) : Z :=
  match environ env_var with
  | None => default_ticket_ttl
  | Some raw_value =>
      match py_int raw_value with
      | Some parsed_ttl =>
          if (parsed_ttl >=? 0)%Z then parsed_ttl else default_ticket_ttl
      | None => default_ticket_ttl
      end
  end.

(** [AuthConfig(...)] *)
Definition AuthConfig_init (b64decode_utf8 : string -> option string)
           (environ : string -> option string)
           (jwt_public_key_env ticket_ttl_env : string)
           (jwt_algorithms : option (list string))
           (default_ticket_ttl default_cache_ttl : Z) : AuthConfig :=
  {| jwt_algorithms :=
       match jwt_algorithms with
       | Some (a :: l) => a :: l
       | _ => ["RS256"]
       end;
     default_ticket_ttl := default_ticket_ttl;
     default_cache_ttl := default_cache_ttl;
     jwt_public_key := _load_jwt_public_key b64decode_utf8 environ jwt_public_key_env;
     ticket_ttl := _load_ticket_ttl default_ticket_ttl environ ticket_ttl_env |}.

(** [AuthConfig()] *)
Definition AuthConfig_default (b64decode_utf8 : string -> option string)
           (environ : string -> option string) : AuthConfig :=
  AuthConfig_init b64decode_utf8 environ "JWT_PUBLIC_KEY" "TICKET_TTL_SECONDS"
                  None 30 1800.

(** *** 2. Service *)

Record AuthService := {
  config : AuthConfig;
  jwt_cache : SimpleCache.t bool;
  ticket_cache : SimpleCache.t bool
}.

(** [AuthService(config)] *)
Definition AuthService_init (cfg : AuthConfig) : AuthService :=
  {| config := cfg; jwt_cache := SimpleCache.new; ticket_cache := SimpleCache.new |}.

Record HTTPException := {
  status_code : Z;
  detail : string
}.

(** What [jwt.decode] does on one call. *)
Inductive DecodeResult :=
| Decoded (payload : Json.dict)
| ExpiredSignatureError
| PyJWTError (message : string).

(** What [jwt.decode(token, key, algorithms)] answers: PyJWT checks the
    signature against the key and the expiry claim against its own
    reading of the clock. *)
Definition Decoder := string -> string -> list string -> DecodeResult.

(** Calls into PyJWT that a request caused. *)
Inductive Call :=
| JwtDecode (token key : string) (algorithms : list string).

Record World := {
  service : AuthService;
  calls : list Call
}.

Inductive Outcome (A : Type) :=
| Return (a : A)
| Raise (e : HTTPException).
Arguments Return {A} a.
Arguments Raise {A} e.

(** Computations of the service: they read and update the service, log
    their calls, and return or raise. *)
Definition M (A : Type) := World -> Outcome A * World.

Definition ret {A} (a : A) : M A := fun w => (Return a, w).

Definition raise {A} (status : Z) (msg : string) : M A :=
  fun w => (Raise {| status_code := status; detail := msg |}, w).

Definition bind {A B} (m : M A) (k : A -> M B) : M B :=
  fun w =>
    match m w with
    | (Return a, w') => k a w'
    | (Raise e, w') => (Raise e, w')
    end.

Notation "x <- m ;; k" := (bind m (fun x => k))
  (at level 61, m at next level, right associativity).
Notation "m ;; k" := (bind m (fun _ => k))
  (at level 61, right associativity).

Definition self : M AuthService := fun w => (Return (service w), w).

Definition set_jwt_cache (c : SimpleCache.t bool) : M unit :=
  fun w =>
    (Return tt,
     {| service := {| config := config (service w);
                      jwt_cache := c;
                      ticket_cache := ticket_cache (service w) |};
        calls := calls w |}).

Definition set_ticket_cache (c : SimpleCache.t bool) : M unit :=
  fun w =>
    (Return tt,
     {| service := {| config := config (service w);
                      jwt_cache := jwt_cache (service w);
                      ticket_cache := c |};
        calls := calls w |}).

Definition call_decode (decode : Decoder) (token key : string)
           (algorithms : list string) : M DecodeResult :=
  fun w =>
    (Return (decode token key algorithms),
     {| service := service w;
        calls := calls w ++ [JwtDecode token key algorithms] |}).

(** [bool(cache.get(key))] *)
Definition cached (c : SimpleCache.t bool) (key : string) (now : Z) : bool :=
  match SimpleCache.get c key now with
  | Some v => v
  | None => false
  end.

Definition Reply := list (string * string).

Record Ticket := {
  ticket : string;
  expires_in : Z
}.

(** [create_ticket]; [uuid4] is the identifier [uuid.uuid4()] drew. *)
Definition create_ticket (uuid4 : string) (now : Z) : M Ticket :=
  s <- self ;;
  set_ticket_cache
    (SimpleCache.set (ticket_cache s) uuid4 true (Some (ticket_ttl (config s))) now) ;;
  ret {| ticket := uuid4; expires_in := ticket_ttl (config s) |}.

Definition validate_ticket (tkt : string) (now : Z) : M bool :=
  s <- self ;;
  ret (cached (ticket_cache s) tkt now).

Definition parse_ticket_from_uri (original_uri : string) : option string :=
  let parsed_uri := Urllib.urlparse original_uri in
  let query_params := Urllib.parse_qs (Urllib.query parsed_uri) in
  match Urllib.dict_get query_params "ticket" with
  | Some (v :: l) => Some (last l v)
  | _ => None
  end.

Definition key_truthy (k : option string) : bool :=
  match k with Some s => PyStr.truthy s | None => false end.

Definition the_key (k : option string) : string :=
  match k with Some s => s | None => EmptyString end.

Definition _validate_jwt (decode : Decoder) (token : string) (now : Z) : M Reply :=
  s <- self ;;
  if negb (key_truthy (jwt_public_key (config s))) then
    raise 503 "Authentication is not possible. JWT public key has not been configured."
  else if cached (jwt_cache s) token now then
    ret [("status", "ok"); ("message", "Access granted from cache.")]
  else
    r <- call_decode decode token (the_key (jwt_public_key (config s)))
                     (jwt_algorithms (config s)) ;;
    match r with
    | Decoded payload =>
        match option_map (fun e => (Json.truthy e, Json.as_int e))
                         (Json.dict_get payload "exp") with
        | Some (true, Some exp) =>
            let ttl := (exp - now)%Z in
            if (ttl >? 0)%Z
            then set_jwt_cache (SimpleCache.set (jwt_cache s) token true (Some ttl) now)
            else ret tt
        | _ =>
            set_jwt_cache
              (SimpleCache.set (jwt_cache s) token true
                               (Some (default_cache_ttl (config s))) now)
        end ;;
        ret [("status", "ok"); ("message", "Access granted after validation.")]
    | ExpiredSignatureError => raise 401 "Token has expired"
    | PyJWTError e => raise 401 ("Invalid token: " ++ e)%string
    end.

(** The headers of a request: names in lower case, as the server hands
    them over, in the order received. *)
Definition Headers := list (string * string).

(** [headers.get(key)] *)
Fixpoint headers_get (h : Headers) (key : string) : option string :=
  match h with
  | [] => None
  | (k, v) :: r =>
      if String.eqb k (PyStr.lower key) then Some v else headers_get r key
  end.

(** [authenticate_request]; [early] holds the reply of the ticket branch
    when that branch returned. *)
Definition authenticate_request (decode : Decoder) (headers : Headers) (now : Z)
  : M Reply :=
  (* Priority 1: ticket validation *)
  let original_uri :=
    match headers_get headers "x-original-uri" with
    | Some u => u
    | None => EmptyString
    end in
  let tkt := parse_ticket_from_uri original_uri in
  early <-
    match tkt with
    | Some t =>
        if PyStr.truthy t then
          ok <- validate_ticket t now ;;
          if (ok : bool)
          then ret (Some [("status", "ok"); ("message", "Ticket validated.")])
          else raise 401 "Invalid or expired ticket."
        else ret None
    | None => ret None
    end ;;
  match early with
  | Some reply => ret reply
  | None =>
      (* Priority 2: JWT validation *)
      match headers_get headers "Authorization" with
      | None => raise 401 "Authorization header is missing"
      | Some auth_header =>
          if negb (PyStr.truthy auth_header) then
            raise 401 "Authorization header is missing"
          else
            match PyStr.split_ws_max1 auth_header with
            | [token_type; token] =>
                if String.eqb (PyStr.lower token_type) "bearer"
                then _validate_jwt decode token now
                else raise 401 "Invalid authorization header format. Must be 'Bearer <token>'"
            | _ => raise 401 "Invalid authorization header format. Must be 'Bearer <token>'"
            end
      end
  end.

End Auth.

(** ** gem/routers/cdp.py *)

Module Cdp.
Import PyStr.

(** *** 1. Configuration *)

Record CDPProxyConfig := {
  custom_command_domain : string;
  websocket_max_size : Z;
  websocket_ping_interval : Z;
  websocket_ping_timeout : Z;
  cdp_origin : option string;
  cdp_netloc : option string
}.

(** Truth value of an [Optional[str]] *)
Definition truthy_opt (o : option string) : bool :=
  match o with Some s => truthy s | None => false end.

Definition _load_env_var (environ : string -> option string) (env_var : string)
  : option string := environ env_var.

Definition _validate_config (c : CDPProxyConfig) : CDPProxyConfig :=
  if truthy_opt (cdp_origin c) && negb (truthy_opt (cdp_netloc c)) then
    let parsed :=
      Urllib.urlparse (match cdp_origin c with Some o => o | None => EmptyString end) in
    if truthy (Urllib.netloc parsed) then
      {| custom_command_domain := custom_command_domain c;
         websocket_max_size := websocket_max_size c;
         websocket_ping_interval := websocket_ping_interval c;
         websocket_ping_timeout := websocket_ping_timeout c;
         cdp_origin := cdp_origin c;
         cdp_netloc := Some (Urllib.netloc parsed) |}
    else c
  else c.

(** [CDPProxyConfig(...)] *)
Definition CDPProxyConfig_init (environ : string -> option string)
           (cdp_origin_env cdp_netloc_env domain : string)
           (max_size ping_interval ping_timeout : Z) : CDPProxyConfig :=
  _validate_config
    {| custom_command_domain := domain;
       websocket_max_size := max_size;
       websocket_ping_interval := ping_interval;
       websocket_ping_timeout := ping_timeout;
       cdp_origin := _load_env_var environ cdp_origin_env;
       cdp_netloc := _load_env_var environ cdp_netloc_env |}.

(** [CDPProxyConfig()] *)
Definition CDPProxyConfig_default (environ : string -> option string)
  : CDPProxyConfig :=
  CDPProxyConfig_init environ "CDP_TARGET_ORIGIN" "CDP_TARGET_NETLOC" "CDPProxy"
                      (20 * 1024 * 1024) 20 20.

Definition is_configured (c : CDPProxyConfig) : bool :=
  truthy_opt (cdp_origin c) && truthy_opt (cdp_netloc c).

Definition str_of (o : option string) : string :=
  match o with Some s => s | None => EmptyString end.

(** *** 2. Rewriting of websocket URLs *)

(** One match of the pattern [ws_url_pattern] at the start of [s]: a
    double quote, [ws] or [wss] and [://], a non-empty run without a
    slash, [/devtools/] and a run without a double quote, a double quote.
    The result holds the three groups and the text after the match.  Both
    runs are greedy and each is followed by a character it excludes, so a
    start position has at most one match. *)
Definition ws_url_match (s : string)
  : option (string * string * string * string) :=
  match strip_prefix (String dquote "ws") s with
  | None => None
  | Some s1 =>
      let after_scheme :=
        match strip_prefix "s://" s1 with
        | Some r => Some ("wss://", r)
        | None =>
            match strip_prefix "://" s1 with
            | Some r => Some ("ws://", r)
            | None => None
            end
        end in
      match after_scheme with
      | None => None
      | Some (g1, s2) =>
          let (g2, s3) := span (fun c => negb (Ascii.eqb c "/"%char)) s2 in
          if negb (truthy g2) then None
          else
            match strip_prefix "/devtools/" s3 with
            | None => None
            | Some s4 =>
                let (tail, s5) := span (fun c => negb (Ascii.eqb c dquote)) s4 in
                match s5 with
                | String _ rest => Some (g1, g2, ("/devtools/" ++ tail)%string, rest)
                | EmptyString => None
                end
            end
      end
  end.

(** [pattern.sub(repl, s)], scanning from the left: where a match starts
    its replacement is written and the matched text is skipped ([skip]
    counts what is left of it), elsewhere the character is copied.
    [repl] receives group 3. *)
Fixpoint sub_from (repl : string -> string) (skip : nat) (s : string) : string :=
  match s with
  | EmptyString => EmptyString
  | String c r =>
      match skip with
      | S k => sub_from repl k r
      | O =>
          match ws_url_match s with
          | Some (_, _, g3, rest) =>
              (repl g3 ++ sub_from repl (String.length r - String.length rest) r)%string
          | None => String c (sub_from repl 0 r)
          end
      end
  end.

Definition ws_url_pattern_sub (repl : string -> string) (s : string) : string :=
  sub_from repl 0 s.

Definition _rewrite_websocket_urls (content proxy_host prefix ws_protocol : string)
  : string :=
  let replace_func path_part :=
    (String dquote (ws_protocol ++ "://" ++ proxy_host ++ prefix ++ path_part)
       ++ String dquote EmptyString)%string in
  ws_url_pattern_sub replace_func content.

(** *** 3. The discovery endpoints *)

Definition Headers := list (string * string).

Record URL := {
  url_scheme : string;
  url_netloc : string;
  url_path : string;
  url_query : string
}.

Record Request := {
  method : string;
  url : URL;
  headers : Headers;
  body : string
}.

(** A request of the HTTP client to the upstream endpoint. *)
Record OutboundRequest := {
  out_method : string;
  out_url : string;
  out_headers : Headers;
  out_content : option string
}.

Record UpstreamResponse := {
  up_status_code : Z;
  up_content : string;
  up_headers : Headers
}.

(** What a call of the HTTP client does.  [RequestError] stands for the
    [httpx.RequestError]s other than [TimeoutException] (its subclass,
    caught first), [OtherException] for any other [Exception]. *)
Inductive UpstreamOutcome :=
| Responded (r : UpstreamResponse)
| TimeoutException
| RequestError
| OtherException.

Definition Upstream := OutboundRequest -> UpstreamOutcome.

Record Response := {
  content : string;
  status_code : Z;
  response_headers : option Headers;
  media_type : option string
}.

Record HTTPException := {
  exc_status_code : Z;
  detail : string
}.

(** The service: whether its HTTP client exists yet, and the requests it
    has sent upstream. *)
Record Service := {
  config : CDPProxyConfig;
  http_client : bool;
  sent : list OutboundRequest
}.

Definition get_http_client (s : Service) : Service :=
  {| config := config s; http_client := true; sent := sent s |}.

(** [http_client.get(url, headers=headers)] *)
Definition http_client_get (upstream : Upstream) (s : Service)
           (target : string) (hdrs : Headers) : UpstreamOutcome * Service :=
  let req := {| out_method := "GET"; out_url := target;
                out_headers := hdrs; out_content := None |} in
  (upstream req,
   {| config := config s; http_client := http_client s; sent := sent s ++ [req] |}).

(** [headers.get(key)], names in lower case as the server hands them over *)
Fixpoint headers_get (h : Headers) (key : string) : option string :=
  match h with
  | [] => None
  | (k, v) :: r => if String.eqb k (lower key) then Some v else headers_get r key
  end.

(** [response.headers.get(key)] on the headers of the HTTP client, which
    compares names without regard to case. *)
Fixpoint response_headers_get (h : Headers) (key : string) : option string :=
  match h with
  | [] => None
  | (k, v) :: r =>
      if String.eqb (lower k) (lower key) then Some v else response_headers_get r key
  end.

(** [d[key] = v] on a [dict] of strings *)
Fixpoint dict_set (d : Headers) (key v : string) : Headers :=
  match d with
  | [] => [(key, v)]
  | (k, v0) :: r =>
      if String.eqb k key then (k, v) :: r else (k, v0) :: dict_set r key v
  end.

(** The dictionary comprehension that copies the inbound headers. *)
Definition copy_headers (h : Headers) : Headers :=
  fold_left
    (fun d kv =>
       let key := lower (fst kv) in
       if String.eqb key "host" || String.eqb key "accept-encoding"
       then d else dict_set d (fst kv) (snd kv))
    h [].

Definition handle_http_request (upstream : Upstream) (s : Service)
           (request : Request) (path : string)
  : (Response + HTTPException) * Service :=
  if negb (is_configured (config s)) then
    (inr {| exc_status_code := 503;
            detail := "CDP proxy is not properly configured" |}, s)
  else
    let s := get_http_client s in
    let prefix :=
      match headers_get (headers request) "x-forwarded-prefix" with
      | Some p => p
      | None => EmptyString
      end in
    let hdrs := copy_headers (headers request) in
    let hdrs :=
      if truthy_opt (cdp_netloc (config s))
      then dict_set hdrs "Host" (str_of (cdp_netloc (config s)))
      else hdrs in
    match http_client_get upstream s
            (str_of (cdp_origin (config s)) ++ url_path (url request))%string hdrs with
    | (Responded response, s') =>
        if negb (up_status_code response =? 200)%Z then
          (inl {| content := up_content response;
                  status_code := up_status_code response;
                  response_headers := Some (up_headers response);
                  media_type := None |}, s')
        else
          let original_body := up_content response in
          let proxy_host :=
            match headers_get (headers request) "host" with
            | Some h => h
            | None => url_netloc (url request)
            end in
          let ws_protocol :=
            if String.eqb (url_scheme (url request)) "https" then "wss" else "ws" in
          let modified_body :=
            _rewrite_websocket_urls original_body proxy_host prefix ws_protocol in
          (inl {| content := modified_body;
                  status_code := up_status_code response;
                  response_headers := None;
                  media_type := response_headers_get (up_headers response) "content-type" |}, s')
    | (TimeoutException, s') =>
        (inr {| exc_status_code := 504; detail := "CDP request timeout" |}, s')
    | (RequestError, s') =>
        (inr {| exc_status_code := 502; detail := "CDP connection failed" |}, s')
    | (OtherException, s') =>
        (inr {| exc_status_code := 500; detail := "Internal server error" |}, s')
    end.

(** The route [cdp_http_proxy], registered for GET and POST on [/json] and
    [/json/{path}]: a request with another method does not reach the
    service. *)
Definition cdp_http_proxy (upstream : Upstream) (s : Service)
           (request : Request) (path : string)
  : option ((Response + HTTPException) * Service) :=
  if String.eqb (method request) "GET" || String.eqb (method request) "POST"
  then Some (handle_http_request upstream s request path)
  else None.

(** *** 4. The session relay *)

(** The payload of a websocket frame. *)
Inductive Data :=
| Text (s : string)
| Bytes (b : string).

(** What [client_ws.receive()] returns. *)
Record Message := {
  type : string;
  text : option string;
  bytes : option string;
  code : option Z;
  reason : option string
}.

(** What the relay does on its two connections. *)
Inductive WsEvent :=
| ClientAccept
| ClientClose (code : Z) (reason : option string)
| ClientSendJson (v : Json.value)
| ClientSendText (s : string)
| ClientSendBytes (b : string)
| UpstreamConnect (target : string) (max_size ping_interval ping_timeout : Z)
| UpstreamSend (d : Data)
| UpstreamClose.

Record LoggingState := { enabled : bool }.

Definition _send_success_response (command_id : Json.value) : list WsEvent :=
  [ClientSendJson (Json.JObj [("id", command_id); ("result", Json.JObj [])])].

Definition _send_error_response (command_id : Json.value) (code : Z) (message : string)
  : list WsEvent :=
  [ClientSendJson
     (Json.JObj [("id", command_id);
                 ("error", Json.JObj [("code", Json.JInt code);
                                      ("message", Json.JStr message)])])].

(** [_handle_custom_command]: whether the frame was handled, the logging
    state afterwards and what was sent.  [AttributeError] ([.get] on a
    value that is not a dictionary) and [JSONDecodeError] both end in
    [return False]. *)
Definition _handle_custom_command (cfg : CDPProxyConfig) (data : string)
           (logging_state : LoggingState)
  : bool * LoggingState * list WsEvent :=
  let domain := custom_command_domain cfg in
  if negb (contains domain data) then (false, logging_state, [])
  else
    match Json.loads data with
    | Json.Parsed (Json.JObj msg_json) _ =>
        match Json.dict_get msg_json "method" with
        | Some (Json.JStr method) =>
            if negb (startswith (domain ++ ".") method) then (false, logging_state, [])
            else
              let command_id :=
                match Json.dict_get msg_json "id" with
                | Some v => v
                | None => Json.JNull
                end in
              let params :=
                match Json.dict_get msg_json "params" with
                | Some v => v
                | None => Json.JObj []
                end in
              if String.eqb method (domain ++ ".setLoggingEnabled") then
                match params with
                | Json.JObj p =>
                    let enabled :=
                      match Json.dict_get p "enabled" with
                      | Some v => Json.truthy v
                      | None => false
                      end in
                    (true, {| enabled := enabled |}, _send_success_response command_id)
                | _ => (false, logging_state, [])
                end
              else
                (true, logging_state,
                 _send_error_response command_id (-32601) "Method not found")
        | _ => (false, logging_state, [])
        end
    | _ => (false, logging_state, [])
    end.

(** [message.get("text") or message.get("bytes")] *)
Definition message_data (m : Message) : option Data :=
  match text m with
  | Some (String c r) => Some (Text (String c r))
  | _ =>
      match bytes m with
      | Some b => Some (Bytes b)
      | None => None
      end
  end.

(** One turn of the loop of [_forward_client_to_cdp] on the message
    received: whether the loop goes on, the logging state, what was
    sent. *)
Definition client_to_cdp_step (cfg : CDPProxyConfig) (m : Message)
           (logging_state : LoggingState)
  : bool * LoggingState * list WsEvent :=
  if String.eqb (type m) "websocket.receive" then
    match message_data m with
    | None => (true, logging_state, [])
    | Some (Text data) =>
        match _handle_custom_command cfg data logging_state with
        | (true, st, evs) => (true, st, evs)
        | (false, st, evs) => (true, st, evs ++ [UpstreamSend (Text data)])
        end
    | Some (Bytes data) => (true, logging_state, [UpstreamSend (Bytes data)])
    end
  else if String.eqb (type m) "websocket.disconnect" then (false, logging_state, [])
  else (true, logging_state, []).

(** One turn of the loop of [_forward_cdp_to_client]. *)
Definition cdp_to_client_step (message : Data) : list WsEvent :=
  match message with
  | Text s => [ClientSendText s]
  | Bytes b => [ClientSendBytes b]
  end.

(** [_forward_client_to_cdp] on the messages the client sends: the loop
    ends with a disconnect, or waits when the messages run out. *)
Fixpoint _forward_client_to_cdp (cfg : CDPProxyConfig) (messages : list Message)
         (logging_state : LoggingState) : list WsEvent * LoggingState :=
  match messages with
  | [] => ([], logging_state)
  | m :: rest =>
      match client_to_cdp_step cfg m logging_state with
      | (true, st, evs) =>
          let (more, final) := _forward_client_to_cdp cfg rest st in
          (evs ++ more, final)
      | (false, st, evs) => (evs, st)
      end
  end.

(** [_forward_cdp_to_client] on the frames the upstream side sends. *)
Definition _forward_cdp_to_client (messages : list Data) : list WsEvent :=
  flat_map cdp_to_client_step messages.

(** What arrives during a session, in the order the two loops get to
    handle it.  The list ends where the upstream side ends its stream. *)
Inductive SessionInput :=
| FromClient (m : Message)
| FromUpstream (d : Data).

(** The two loops until the first of them ends: the events, and whether
    the client has disconnected. *)
Fixpoint relay (cfg : CDPProxyConfig) (inputs : list SessionInput)
         (logging_state : LoggingState) : list WsEvent * bool :=
  match inputs with
  | [] => ([], false)
  | FromClient m :: rest =>
      match client_to_cdp_step cfg m logging_state with
      | (true, st, evs) =>
          let (more, gone) := relay cfg rest st in (evs ++ more, gone)
      | (false, _, evs) =>
          (evs, String.eqb (type m) "websocket.disconnect")
      end
  | FromUpstream d :: rest =>
      let (more, gone) := relay cfg rest logging_state in
      (cdp_to_client_step d ++ more, gone)
  end.

(** What [websockets.connect] does. *)
Inductive ConnectOutcome :=
| Connected (inputs : list SessionInput)
| InvalidURI
| ConnectionClosed (code : Z) (reason : string)
| ConnectFailed.

(** [handle_websocket_request]; [initial_state] is whether the root logger
    is enabled for DEBUG. *)
Definition handle_websocket_request (cfg : CDPProxyConfig)
           (connect : string -> ConnectOutcome) (initial_state : bool)
           (path : string) : list WsEvent :=
  if negb (is_configured cfg) then
    [ClientClose 1011%Z (Some "CDP proxy not configured")]
  else
    let logging_state := {| enabled := initial_state |} in
    let cdp_ws_url := ("ws://" ++ str_of (cdp_netloc cfg) ++ "/devtools/" ++ path)%string in
    ClientAccept ::
    UpstreamConnect cdp_ws_url (websocket_max_size cfg)
                    (websocket_ping_interval cfg) (websocket_ping_timeout cfg) ::
    match connect cdp_ws_url with
    | Connected inputs =>
        let (evs, client_gone) := relay cfg inputs logging_state in
        evs ++ [UpstreamClose] ++
        (if client_gone then [] else [ClientClose 1000%Z None])
    | InvalidURI =>
        [ClientClose 1011%Z (Some "Invalid upstream WebSocket URI")]
    | ConnectionClosed c r => [ClientClose c (Some r)]
    | ConnectFailed =>
        [ClientClose 1011%Z (Some "Internal server error")]
    end.

End Cdp.

(** ** Notions used to state the properties *)





(** The token of an [Authorization] header of the form [Bearer <token>], as
    [authenticate_request] takes the header apart. *)
Definition bearer_token (auth_header : string) : option string :=
  match PyStr.split_ws_max1 auth_header with
  | [token_type; token] =>
      if String.eqb (PyStr.lower token_type) "bearer" then Some token else None
  | _ => None
  end.

Definition unauthorized (msg : string) : Auth.HTTPException :=
  {| Auth.status_code := 401; Auth.detail := msg |}.

(** What happens to the ticket store: a ticket is issued (with the
    identifier [uuid.uuid4()] drew) or one is checked, at a given time. *)
Inductive TicketOp :=
| Issue (uuid4 : string) (now : Z)
| Check (tkt : string) (now : Z).

Definition run_op (op : TicketOp) (w : Auth.World) : Auth.World :=
  match op with
  | Issue u now => snd (Auth.create_ticket u now w)
  | Check t now => snd (Auth.validate_ticket t now w)
  end.

Definition run_ops (ops : list TicketOp) (w : Auth.World) : Auth.World :=
  fold_left (fun w op => run_op op w) ops w.



(** The service as [startup] builds it, in an environment that sets none of
    its variables. *)
Definition fresh_world : Auth.World :=
  {| Auth.service :=
       Auth.AuthService_init (Auth.AuthConfig_default (fun _ => None) (fun _ => None));
     Auth.calls := [] |}.

(** The service with another public key configured. *)
Definition with_key (key : option string) (w : Auth.World) : Auth.World :=
  {| Auth.service :=
       {| Auth.config :=
            {| Auth.jwt_algorithms := Auth.jwt_algorithms (Auth.config (Auth.service w));
               Auth.default_ticket_ttl := Auth.default_ticket_ttl (Auth.config (Auth.service w));
               Auth.default_cache_ttl := Auth.default_cache_ttl (Auth.config (Auth.service w));
               Auth.jwt_public_key := key;
               Auth.ticket_ttl := Auth.ticket_ttl (Auth.config (Auth.service w)) |};
          Auth.jwt_cache := Auth.jwt_cache (Auth.service w);
          Auth.ticket_cache := Auth.ticket_cache (Auth.service w) |};
     Auth.calls := Auth.calls w |}.

(** The service with another JWT cache. *)
Definition with_jwt_cache (c : SimpleCache.t bool) (w : Auth.World) : Auth.World :=
  {| Auth.service :=
       {| Auth.config := Auth.config (Auth.service w);
          Auth.jwt_cache := c;
          Auth.ticket_cache := Auth.ticket_cache (Auth.service w) |};
     Auth.calls := Auth.calls w |}.

(** The log with one more call of [jwt.decode]. *)
Definition with_call (c : Auth.Call) (w : Auth.World) : Auth.World :=
  {| Auth.service := Auth.service w; Auth.calls := Auth.calls w ++ [c] |}.

Definition granted_from_cache : Auth.Reply :=
  [("status", "ok"); ("message", "Access granted from cache.")].

Definition granted_after_validation : Auth.Reply :=
  [("status", "ok"); ("message", "Access granted after validation.")].



(** A decoder that accepts every token with the given payload, and one that
    rejects every token. *)
Definition accepting (payload : Json.dict) : Auth.Decoder :=
  fun _ _ _ => Auth.Decoded payload.

Definition rejecting : Auth.Decoder :=
  fun _ _ _ => Auth.PyJWTError "Signature verification failed".

(** The fresh service with a public key configured. *)
Definition keyed_world : Auth.World := with_key (Some "PUBLIC KEY") fresh_world.



(** [request.headers.get("x-forwarded-prefix", default)] with the empty
    string as default *)
Definition forwarded_prefix (request : Cdp.Request) : string :=
  match Cdp.headers_get (Cdp.headers request) "x-forwarded-prefix" with
  | Some p => p
  | None => EmptyString
  end.

(** [request.headers.get("host", request.url.netloc)] *)
Definition public_host (request : Cdp.Request) : string :=
  match Cdp.headers_get (Cdp.headers request) "host" with
  | Some h => h
  | None => Cdp.url_netloc (Cdp.url request)
  end.

(** The websocket scheme that goes with the scheme of the inbound request. *)
Definition inbound_ws_scheme (request : Cdp.Request) : string :=
  if String.eqb (Cdp.url_scheme (Cdp.url request)) "https" then "wss" else "ws".

(** The request the discovery proxy sends upstream for an inbound one. *)
Definition upstream_request (s : Cdp.Service) (request : Cdp.Request)
  : Cdp.OutboundRequest :=
  {| Cdp.out_method := "GET";
     Cdp.out_url :=
       (Cdp.str_of (Cdp.cdp_origin (Cdp.config s)) ++ Cdp.url_path (Cdp.url request))%string;
     Cdp.out_headers :=
       Cdp.dict_set (Cdp.copy_headers (Cdp.headers request)) "Host"
                    (Cdp.str_of (Cdp.cdp_netloc (Cdp.config s)));
     Cdp.out_content := None |}.

(** The proxy service as [startup] builds it where only
    [CDP_TARGET_ORIGIN] is set, to [http://localhost:9222]. *)
Definition local_service : Cdp.Service :=
  {| Cdp.config :=
       Cdp.CDPProxyConfig_default
         (fun v => if String.eqb v "CDP_TARGET_ORIGIN"
                   then Some "http://localhost:9222" else None);
     Cdp.http_client := false;
     Cdp.sent := [] |}.

(** The proxy service where the environment sets nothing. *)
Definition unconfigured_service : Cdp.Service :=
  {| Cdp.config := Cdp.CDPProxyConfig_default (fun _ => None);
     Cdp.http_client := false;
     Cdp.sent := [] |}.

(** An inbound [GET https://public.example/json], routed with the prefix
    [/cdp]. *)
Definition https_json_request : Cdp.Request :=
  {| Cdp.method := "GET";
     Cdp.url := {| Cdp.url_scheme := "https"; Cdp.url_netloc := "public.example";
                   Cdp.url_path := "/json"; Cdp.url_query := EmptyString |};
     Cdp.headers := [("host", "public.example"); ("x-forwarded-prefix", "/cdp");
                     ("accept-encoding", "gzip")];
     Cdp.body := EmptyString |}.

(** An upstream endpoint that answers every request with status 200 and the
    given body. *)
Definition answering (body : string) : Cdp.Upstream :=
  fun _ => Cdp.Responded {| Cdp.up_status_code := 200;
                            Cdp.up_content := body;
                            Cdp.up_headers := [("content-type", "application/json")] |}.

(** The same inbound request with another method and body. *)
Definition with_method_body (m b : string) (request : Cdp.Request) : Cdp.Request :=
  {| Cdp.method := m; Cdp.url := Cdp.url request;
     Cdp.headers := Cdp.headers request; Cdp.body := b |}.

(** The structural check of the specification on a text frame: it parses as
    a JSON object whose [method] is a string that starts with the control
    domain and a dot.  The result is the method and the object. *)
Definition control_message (cfg : Cdp.CDPProxyConfig) (data : string)
  : option (string * Json.dict) :=
  match Json.loads data with
  | Json.Parsed (Json.JObj msg) _ =>
      match Json.dict_get msg "method" with
      | Some (Json.JStr method) =>
          if PyStr.startswith (Cdp.custom_command_domain cfg ++ ".") method
          then Some (method, msg) else None
      | _ => None
      end
  | _ => None
  end.

(** The reply of the control channel to a message: the empty result for
    [setLoggingEnabled], the error -32601 for any other verb; the [id] of
    the message, or [null]. *)
Definition control_reply (cfg : Cdp.CDPProxyConfig) (method : string) (msg : Json.dict)
  : Json.value :=
  let id := match Json.dict_get msg "id" with Some v => v | None => Json.JNull end in
  if String.eqb method (Cdp.custom_command_domain cfg ++ ".setLoggingEnabled")
  then Json.JObj [("id", id); ("result", Json.JObj [])]
  else Json.JObj [("id", id);
                  ("error", Json.JObj [("code", Json.JInt (-32601));
                                       ("message", Json.JStr "Method not found")])].

(** The [params] of a [setLoggingEnabled] are missing or an object; other
    verbs make no use of them. *)
Definition params_usable (cfg : Cdp.CDPProxyConfig) (method : string) (msg : Json.dict)
  : bool :=
  if String.eqb method (Cdp.custom_command_domain cfg ++ ".setLoggingEnabled")
  then match Json.dict_get msg "params" with
       | None | Some (Json.JObj _) => true
       | Some _ => false
       end
  else true.

(** A text frame as [receive()] reports it. *)
Definition text_frame (data : string) : Cdp.Message :=
  {| Cdp.type := "websocket.receive"; Cdp.text := Some data; Cdp.bytes := None;
     Cdp.code := None; Cdp.reason := None |}.

(** What one turn of the client loop sent. *)
Definition events_of (r : bool * Cdp.LoggingState * list Cdp.WsEvent)
  : list Cdp.WsEvent := snd r.

(** The configuration of [local_service]: the control domain is
    [CDPProxy]. *)
Definition local_config : Cdp.CDPProxyConfig := Cdp.config local_service.

Definition logging_off : Cdp.LoggingState := {| Cdp.enabled := false |}.

(** An upstream endpoint that accepts the connection and sends nothing. *)
Definition silent_upstream : string -> Cdp.ConnectOutcome :=
  fun _ => Cdp.Connected [].

(** A scan of [s] did not run out of fuel, and what it parsed it took from
    the front of [s]. *)
Definition consumes {A : Type} (s : string) (r : Json.parsed A) : Prop :=
  match r with
  | Json.Parsed _ rest => (String.length rest < String.length s)%nat
  | Json.Malformed => True
  | Json.Exhausted => False
  end.

(** ** gem/server.py: the application and the dependencies of its routes *)

Module Server.

(** [app.state]: each service is there once its [startup] has run. *)
Record App := {
  auth_service : option Auth.World;
  cdp_service : option Cdp.Service
}.


(** [auth.startup(app)] *)
Definition auth_startup (b64decode_utf8 : string -> option string)
           (environ : string -> option string) (app : App) : App :=
  {| auth_service :=
       Some {| Auth.service :=
                 Auth.AuthService_init (Auth.AuthConfig_default b64decode_utf8 environ);
               Auth.calls := [] |};
     cdp_service := cdp_service app |}.

(** [cdp.startup(app)] *)
Definition cdp_startup (environ : string -> option string) (app : App) : App :=
  {| auth_service := auth_service app;
     cdp_service :=
       Some {| Cdp.config := Cdp.CDPProxyConfig_default environ;
               Cdp.http_client := false;
               Cdp.sent := [] |} |}.

(** [CDPProxyService.close] *)
Definition close (s : Cdp.Service) : Cdp.Service :=
  {| Cdp.config := Cdp.config s; Cdp.http_client := false; Cdp.sent := Cdp.sent s |}.

(** [cdp.shutdown(app)] *)
Definition cdp_shutdown (app : App) : App :=
  {| auth_service := auth_service app;
     cdp_service := option_map close (cdp_service app) |}.

(** [lifespan] up to its [yield], and after it. *)
Definition lifespan_startup (b64decode_utf8 : string -> option string)
           (environ : string -> option string) (app : App) : App :=
  cdp_startup environ (auth_startup b64decode_utf8 environ app).

Definition lifespan_shutdown (app : App) : App := cdp_shutdown app.


Definition _get_shared_cdp_service (app : App) : Cdp.Service + Cdp.HTTPException :=
  match cdp_service app with
  | Some s => inl s
  | None => inr {| Cdp.exc_status_code := 503;
                   Cdp.detail := "CDP proxy service is not available." |}
  end.



(** The routes [/json] and [/json/{path}]; [None] where the method is not
    routed. *)
Definition cdp_http_proxy_route (app : App) (upstream : Cdp.Upstream)
           (request : Cdp.Request) (path : string)
  : option ((Cdp.Response + Cdp.HTTPException) * App) :=
  match _get_shared_cdp_service app with
  | inr e =>
      if String.eqb (Cdp.method request) "GET" || String.eqb (Cdp.method request) "POST"
      then Some (inr e, app) else None
  | inl s =>
      match Cdp.cdp_http_proxy upstream s request path with
      | Some (r, s') =>
          Some (r, {| auth_service := auth_service app; cdp_service := Some s' |})
      | None => None
      end
  end.

End Server.

(** ** Further notions *)

(** The requests for JWT verification that reach the service: the token and
    the time. *)
Definition run_jwt (decode : Auth.Decoder) (requests : list (string * Z))
           (w : Auth.World) : Auth.World :=
  fold_left (fun w r => snd (Auth._validate_jwt decode (fst r) (snd r) w)) requests w.

(** The keys a cache holds, expired or not. *)
Definition cached_keys {V : Type} (c : SimpleCache.t V) : list string :=
  map fst (SimpleCache._cache c).

(** [jwt.decode] accepts the token under the key and algorithms of the
    service. *)
Definition accepted_by (decode : Auth.Decoder) (w : Auth.World) (token : string) : Prop :=
  exists payload,
    decode token (Auth.the_key (Auth.jwt_public_key (Auth.config (Auth.service w))))
           (Auth.jwt_algorithms (Auth.config (Auth.service w))) = Auth.Decoded payload.




(** The frames the relay sent upstream, and those it delivered to the
    client, in order. *)
Definition upstream_sends (evs : list Cdp.WsEvent) : list Cdp.Data :=
  Urllib.collect (fun e => match e with Cdp.UpstreamSend d => Some d | _ => None end) evs.

Definition client_deliveries (evs : list Cdp.WsEvent) : list Cdp.Data :=
  Urllib.collect
    (fun e => match e with
              | Cdp.ClientSendText s => Some (Cdp.Text s)
              | Cdp.ClientSendBytes b => Some (Cdp.Bytes b)
              | _ => None
              end) evs.

Definition is_disconnect (m : Cdp.Message) : bool :=
  negb (String.eqb (Cdp.type m) "websocket.receive") &&
  String.eqb (Cdp.type m) "websocket.disconnect".

(** What arrives before the client disconnects. *)
Fixpoint until_disconnect (inputs : list Cdp.SessionInput) : list Cdp.SessionInput :=
  match inputs with
  | [] => []
  | Cdp.FromClient m :: rest =>
      if is_disconnect m then [] else Cdp.FromClient m :: until_disconnect rest
  | Cdp.FromUpstream d :: rest => Cdp.FromUpstream d :: until_disconnect rest
  end.

Definition client_disconnects (inputs : list Cdp.SessionInput) : bool :=
  existsb (fun i => match i with
                    | Cdp.FromClient m => is_disconnect m
                    | Cdp.FromUpstream _ => false
                    end) inputs.

(** The control channel answers the text itself. *)
Definition answered_locally (cfg : Cdp.CDPProxyConfig) (data : string) : bool :=
  match control_message cfg data with
  | Some (method, msg) =>
      PyStr.contains (Cdp.custom_command_domain cfg) data && params_usable cfg method msg
  | None => false
  end.

(** What an input makes the relay send upstream, if anything. *)
Definition forwarded (cfg : Cdp.CDPProxyConfig) (i : Cdp.SessionInput) : option Cdp.Data :=
  match i with
  | Cdp.FromUpstream _ => None
  | Cdp.FromClient m =>
      if String.eqb (Cdp.type m) "websocket.receive" then
        match Cdp.message_data m with
        | Some (Cdp.Text data) =>
            if answered_locally cfg data then None else Some (Cdp.Text data)
        | Some (Cdp.Bytes b) => Some (Cdp.Bytes b)
        | None => None
        end
      else None
  end.

(** What an input makes the relay deliver to the client, if anything. *)
Definition delivered (i : Cdp.SessionInput) : option Cdp.Data :=
  match i with
  | Cdp.FromUpstream d => Some d
  | Cdp.FromClient _ => None
  end.


Definition is_upstream_close (e : Cdp.WsEvent) : bool :=
  match e with Cdp.UpstreamClose => true | _ => false end.

Definition is_upstream_connect (e : Cdp.WsEvent) : bool :=
  match e with Cdp.UpstreamConnect _ _ _ _ => true | _ => false end.

(** A frame sent on one of the two connections. *)
Definition is_send (e : Cdp.WsEvent) : bool :=
  match e with
  | Cdp.ClientSendJson _ | Cdp.ClientSendText _ | Cdp.ClientSendBytes _
  | Cdp.UpstreamSend _ => true
  | _ => false
  end.






(** The discovery routes take GET and POST. *)
Definition routed (request : Cdp.Request) : bool :=
  String.eqb (Cdp.method request) "GET" || String.eqb (Cdp.method request) "POST".

(** The application serving discovery requests one after the other, each
    with the path parameter of its route. *)
Definition serve (upstream : Cdp.Upstream) (requests : list (Cdp.Request * string))
           (app : Server.App) : Server.App :=
  fold_left
    (fun app r =>
       match Server.cdp_http_proxy_route app upstream (fst r) (snd r) with
       | Some (_, app') => app'
       | None => app
       end)
    requests app.




(* ================================================================== *)
(** * Part II: properties                                              *)
(* ================================================================== *)

(** ** Extraction of the ticket from a URI *)

Section TicketExtraction.
Import PyStr Urllib.
















Example parse_ticket_repeated :
  Auth.parse_ticket_from_uri "/devtools/page/1?ticket=a&ticket=b" = Some "b".
Proof. reflexivity. Qed.

Example parse_ticket_absent :
  Auth.parse_ticket_from_uri "/devtools/page/1?x=1#ticket=b" = None.
Proof. reflexivity. Qed.

End TicketExtraction.

(** ** The decision of the gateway *)

Section Gateway.
Import PyStr Auth.

Lemma span_app (p : ascii -> bool) (a b : string) :
  Urllib.all_chars p a = true ->
  match b with String c _ => p c = false | EmptyString => True end ->
  span p (a ++ b) = (a, b).
Proof.
  intros Ha Hb. induction a as [|c a IH]; simpl in *.
  - destruct b as [|c r]; [reflexivity|]. simpl. now rewrite Hb.
  - apply andb_true_iff in Ha as [Hc Ha]. now rewrite Hc, IH.
Qed.

Lemma lower_char_not_space (c : ascii) :
  is_lower (lower_char c) = true -> is_space c = false.
Proof.
  destruct c as [[] [] [] [] [] [] [] []]; vm_compute; congruence.
Qed.

Lemma lower_letters_not_space (s : string) :
  Urllib.all_chars is_lower (lower s) = true ->
  Urllib.all_chars (fun c => negb (is_space c)) s = true.
Proof.
  induction s as [|c s IH]; simpl; [reflexivity|].
  intros H. apply andb_true_iff in H as [Hc Hs].
  now rewrite (lower_char_not_space c Hc), IH.
Qed.

(** The scheme of the header is read without regard to case, and one
    blank separates it from the token. *)
Lemma bearer_token_form (sch tok : string) (c : ascii) :
  lower sch = "bearer" ->
  is_space c = false ->
  bearer_token (sch ++ " " ++ String c tok) = Some (String c tok).
Proof.
  intros Hs Hc. unfold bearer_token, split_ws_max1.
  assert (Hall : Urllib.all_chars (fun c => negb (is_space c)) sch = true)
    by (apply lower_letters_not_space; rewrite Hs; reflexivity).
  destruct sch as [|c0 sch]; [discriminate|].
  simpl in Hall. apply andb_true_iff in Hall as [Hc0 Hall].
  apply negb_true_iff in Hc0.
  cbn [append span]. rewrite Hc0. cbn [snd].
  change (String c0 (sch ++ " " ++ String c tok))
    with (String c0 sch ++ " " ++ String c tok)%string.
  rewrite (span_app _ (String c0 sch) (" " ++ String c tok)).
  - cbn. rewrite Hc. change (is_space " ") with true. cbn [snd].
    now rewrite Hs.
  - simpl. now rewrite Hc0.
  - reflexivity.
Qed.

Example bearer_token_examples :
  bearer_token "Bearer abc" = Some "abc" /\
  bearer_token "bEaReR abc" = Some "abc" /\
  bearer_token "Bearer" = None /\
  bearer_token "Bearer " = None /\
  bearer_token "Basic abc" = None /\
  bearer_token "abc" = None.
Proof. repeat split; reflexivity. Qed.




Example ticket_accepted_without_jwt :
  let w := snd (create_ticket "A" 100 fresh_world) in
  authenticate_request rejecting
    [("x-original-uri", "/devtools/page/1?ticket=A")] 110 w =
  (Return [("status", "ok"); ("message", "Ticket validated.")], w).
Proof. reflexivity. Qed.

Example unknown_ticket_rejected_despite_bearer :
  authenticate_request (accepting [])
    [("x-original-uri", "/devtools/page/1?ticket=B"); ("authorization", "Bearer tok")]
    110 keyed_world =
  (Raise (unauthorized "Invalid or expired ticket."), keyed_world).
Proof. reflexivity. Qed.

End Gateway.

(** ** The ticket store *)

Section CacheFacts.
Context {V : Type}.
Import SimpleCache.

Lemma lookup_store_same (d : list (string * (Z * V))) (k : string) (e : Z * V) :
  lookup (store d k e) k = Some e.
Proof.
  induction d as [|[k0 e0] d IH]; simpl.
  - now rewrite String.eqb_refl.
  - destruct (String.eqb_spec k0 k) as [->|Hk]; simpl.
    + now rewrite String.eqb_refl.
    + destruct (String.eqb_spec k0 k); [contradiction|exact IH].
Qed.



(** Right after [set], the key is there with the deadline [set] chose. *)
Lemma lookup_set_same (c : SimpleCache.t V) (k : string) (v : V)
      (timeout : option Z) (now : Z) :
  lookup (_cache (set c k v timeout now)) k =
  Some (_normalize_timeout c timeout now, v).
Proof. unfold set. simpl. apply lookup_store_same. Qed.


End CacheFacts.

Section Tickets.
Import Auth.

Lemma create_ticket_cache (uuid4 : string) (t0 : Z) (w : World) :
  ticket_cache (service (snd (create_ticket uuid4 t0 w))) =
  SimpleCache.set (ticket_cache (service w)) uuid4 true
                  (Some (ticket_ttl (config (service w)))) t0.
Proof. reflexivity. Qed.





Example ticket_expired_at_ttl :
  fst (validate_ticket "A" 130 (snd (create_ticket "A" 100 fresh_world)))
  = Return false.
Proof. reflexivity. Qed.


(** A TTL of zero, which [_load_ticket_ttl] accepts, is the cache's
    notation for an entry that never expires. *)
Lemma ticket_ttl_zero_accepted :
  _load_ticket_ttl 30
    (fun v => if String.eqb v "TICKET_TTL_SECONDS" then Some "0" else None)
    "TICKET_TTL_SECONDS" = 0%Z.
Proof. reflexivity. Qed.

Lemma ticket_ttl_zero_never_expires
      (w0 : World) (uuid4 : string) (t0 t : Z) :
  ticket_ttl (config (service w0)) = 0%Z ->
  fst (validate_ticket uuid4 t (snd (create_ticket uuid4 t0 w0))) = Return true.
Proof.
  intros H0. unfold validate_ticket, bind, self, ret. cbn [fst].
  unfold cached, SimpleCache.get. rewrite create_ticket_cache, lookup_set_same.
  unfold SimpleCache._normalize_timeout. rewrite H0. reflexivity.
Qed.

End Tickets.

(** ** The JWT verifier *)

Section Jwt.
Import Auth.

Lemma validate_jwt_cached (decode : Decoder) (w : World) (token : string) (now : Z) :
  key_truthy (jwt_public_key (config (service w))) = true ->
  cached (jwt_cache (service w)) token now = true ->
  _validate_jwt decode token now w = (Return granted_from_cache, w).
Proof.
  intros Hk Hc. unfold _validate_jwt, bind, self. simpl.
  rewrite Hk, Hc. reflexivity.
Qed.

(** C3: with a public key configured, a token that the JWT cache holds is
    accepted at once.  The service comes back as it was, with no call of
    [jwt.decode] added to its log, and the answer does not depend on what
    [jwt.decode] would say nor on which key is configured. *)
Theorem cached_token_skips_verification
        (decode : Decoder) (w : World) (token : string) (now : Z)
        (Hkey : key_truthy (jwt_public_key (config (service w))) = true)
        (Hcached : cached (jwt_cache (service w)) token now = true) :
  _validate_jwt decode token now w = (Return granted_from_cache, w) /\
  calls (snd (_validate_jwt decode token now w)) = calls w /\
  forall (decode' : Decoder) (key' : string),
    PyStr.truthy key' = true ->
    _validate_jwt decode' token now (with_key (Some key') w) =
    (Return granted_from_cache, with_key (Some key') w).
Proof.
  split; [now apply validate_jwt_cached|].
  split; [now rewrite validate_jwt_cached|].
  intros decode' key' Hk'. now apply validate_jwt_cached.
Qed.

(** What [_validate_jwt] does with a token that is not cached and that
    [jwt.decode] accepts. *)
Lemma validate_jwt_decoded (decode : Decoder) (w : World) (token : string) (now : Z)
      (payload : Json.dict) :
  key_truthy (jwt_public_key (config (service w))) = true ->
  cached (jwt_cache (service w)) token now = false ->
  decode token (the_key (jwt_public_key (config (service w))))
         (jwt_algorithms (config (service w))) = Decoded payload ->
  let logged :=
    with_call (JwtDecode token (the_key (jwt_public_key (config (service w))))
                         (jwt_algorithms (config (service w)))) w in
  let store ttl :=
    with_jwt_cache (SimpleCache.set (jwt_cache (service w)) token true (Some ttl) now)
                   logged in
  _validate_jwt decode token now w =
  (Return granted_after_validation,
   match Json.dict_get payload "exp" with
   | Some (Json.JInt exp) =>
       if (exp =? 0)%Z then store (default_cache_ttl (config (service w)))
       else if (exp - now >? 0)%Z then store (exp - now)%Z else logged
   | Some (Json.JBool true) =>
       if (1 - now >? 0)%Z then store (1 - now)%Z else logged
   | _ => store (default_cache_ttl (config (service w)))
   end).
Proof.
  intros Hk Hc Hd. unfold _validate_jwt, bind, self, call_decode.
  cbn -[Z.sub Z.gtb Z.eqb SimpleCache.set].
  rewrite Hk, Hc. cbn -[Z.sub Z.gtb Z.eqb SimpleCache.set]. rewrite Hd.
  destruct (Json.dict_get payload "exp") as [v|]; [|reflexivity].
  destruct v as [|[]|n|m e|nm|str|l|l];
    cbn [option_map Json.truthy Json.as_int]; try reflexivity.
  - destruct (1 - now >? 0)%Z; reflexivity.
  - destruct (n =? 0)%Z; cbn [negb]; [reflexivity|].
    destruct (n - now >? 0)%Z; reflexivity.
  - destruct (m =? 0)%Z; reflexivity.
  - destruct (PyStr.truthy str); reflexivity.
  - destruct l; reflexivity.
  - destruct l; reflexivity.
Qed.

(** A token accepted at 1000 with an expiry claim of 2000 is accepted
    again at 1500 by a service whose key was replaced and whose decoder
    rejects everything. *)
Lemma cached_token_skips_verification_witness :
  let w := with_key (Some "ANOTHER KEY")
             (snd (_validate_jwt (accepting [("exp", Json.JInt 2000)]) "tok" 1000
                                 keyed_world)) in
  _validate_jwt rejecting "tok" 1500 w = (Return granted_from_cache, w).
Proof.
  intros w.
  exact (proj1 (cached_token_skips_verification rejecting w "tok" 1500
                  eq_refl eq_refl)).
Defined.

(** The replay named in C3: a token verified at [t1] under one key, with an
    integer expiry claim still ahead, is accepted from the cache at any
    [t2] before that expiry under any other key. *)
Lemma replay_after_key_substitution
      (decode decode' : Decoder) (w : World) (token key' : string) (t1 t2 : Z)
      (payload : Json.dict) (exp : Z) :
  key_truthy (jwt_public_key (config (service w))) = true ->
  cached (jwt_cache (service w)) token t1 = false ->
  decode token (the_key (jwt_public_key (config (service w))))
         (jwt_algorithms (config (service w))) = Decoded payload ->
  Json.dict_get payload "exp" = Some (Json.JInt exp) ->
  (0 <= t1 < exp)%Z -> (t2 < exp)%Z ->
  PyStr.truthy key' = true ->
  let w1 := with_key (Some key') (snd (_validate_jwt decode token t1 w)) in
  fst (_validate_jwt decode token t1 w) = Return granted_after_validation /\
  _validate_jwt decode' token t2 w1 = (Return granted_from_cache, w1).
Proof.
  intros Hk Hc Hd He Ht1 Ht2 Hk' w1. subst w1.
  rewrite (validate_jwt_decoded decode w token t1 payload Hk Hc Hd), He.
  split; [reflexivity|].
  apply validate_jwt_cached; [exact Hk'|].
  destruct (Z.eqb_spec exp 0) as [->|_]; [lia|].
  destruct (Z.gtb_spec (exp - t1) 0) as [_|]; [|lia].
  cbn [snd with_key service jwt_cache with_jwt_cache].
  unfold cached, SimpleCache.get. rewrite lookup_set_same.
  unfold SimpleCache._normalize_timeout.
  destruct (Z.gtb_spec (exp - t1) 0) as [_|]; [|lia].
  replace (t1 + (exp - t1))%Z with exp by lia.
  destruct (Z.gtb_spec exp t2) as [_|]; [|lia].
  now rewrite orb_true_r.
Qed.




End Jwt.

(** ** The discovery proxy *)

Section Strings.
Import PyStr.




End Strings.

Section Rewrite.
Import PyStr Cdp.

Variable repl : string -> string.






End Rewrite.

Section Discovery.
Import PyStr Cdp.

(** A configured proxy sends one request upstream and answers from what
    comes back. *)
Lemma handle_http_request_configured
      (upstream : Upstream) (s : Service) (request : Request) (path : string) :
  is_configured (config s) = true ->
  handle_http_request upstream s request path =
  (match upstream (upstream_request s request) with
   | Responded response =>
       if negb (up_status_code response =? 200)%Z then
         inl {| content := up_content response;
                status_code := up_status_code response;
                response_headers := Some (up_headers response);
                media_type := None |}
       else
         inl {| content :=
                  _rewrite_websocket_urls (up_content response) (public_host request)
                    (forwarded_prefix request) (inbound_ws_scheme request);
                status_code := up_status_code response;
                response_headers := None;
                media_type := response_headers_get (up_headers response) "content-type" |}
   | TimeoutException =>
       inr {| exc_status_code := 504; detail := "CDP request timeout" |}
   | RequestError =>
       inr {| exc_status_code := 502; detail := "CDP connection failed" |}
   | OtherException =>
       inr {| exc_status_code := 500; detail := "Internal server error" |}
   end,
   {| config := config s; http_client := true;
      sent := sent s ++ [upstream_request s request] |}).
Proof.
  intros Hc. unfold handle_http_request. rewrite Hc. cbn [negb].
  unfold is_configured in Hc. apply andb_true_iff in Hc as [_ Hn].
  unfold http_client_get, get_http_client. cbn [config http_client sent].
  rewrite Hn.
  change {| out_method := "GET";
            out_url := (str_of (cdp_origin (config s)) ++ url_path (url request))%string;
            out_headers := dict_set (copy_headers (headers request)) "Host"
                                    (str_of (cdp_netloc (config s)));
            out_content := None |}
    with (upstream_request s request).
  destruct (upstream (upstream_request s request)) as [response| | |];
    try reflexivity.
  destruct (negb (up_status_code response =? 200)%Z); reflexivity.
Qed.

Lemma handle_http_request_unconfigured
      (upstream : Upstream) (s : Service) (request : Request) (path : string) :
  is_configured (config s) = false ->
  handle_http_request upstream s request path =
  (inr {| exc_status_code := 503;
          detail := "CDP proxy is not properly configured" |}, s).
Proof. intros Hc. unfold handle_http_request. now rewrite Hc. Qed.




(** C6: the failures of the discovery proxy.  An unconfigured proxy
    raises 503 and the service is as before, nothing sent upstream; a
    configured one raises 504 when the upstream call times out, 502 on
    another request error, 500 on any other exception, and answers
    otherwise. *)
Theorem discovery_failure_status
        (upstream : Upstream) (s : Service) (request : Request) (path : string) :
  let result := handle_http_request upstream s request path in
  if is_configured (config s) then
    match upstream (upstream_request s request) with
    | TimeoutException =>
        fst result = inr {| exc_status_code := 504; detail := "CDP request timeout" |}
    | RequestError =>
        fst result = inr {| exc_status_code := 502; detail := "CDP connection failed" |}
    | OtherException =>
        fst result = inr {| exc_status_code := 500; detail := "Internal server error" |}
    | Responded _ => exists forwarded, fst result = inl forwarded
    end
  else
    result = (inr {| exc_status_code := 503;
                     detail := "CDP proxy is not properly configured" |}, s) /\
    sent (snd result) = sent s.
Proof.
  intros result. subst result.
  destruct (is_configured (config s)) eqn:Hc.
  - rewrite (handle_http_request_configured upstream s request path Hc).
    destruct (upstream (upstream_request s request)) as [response| | |];
      try reflexivity.
    cbn [fst]. destruct (negb (up_status_code response =? 200)%Z); eexists; reflexivity.
  - rewrite (handle_http_request_unconfigured upstream s request path Hc).
    split; reflexivity.
Qed.

(** C10: whatever the inbound method, GET or POST, and whatever the
    inbound body, the discovery route sends upstream at most one request,
    a GET without content for the configured origin followed by the
    inbound path; method and body of the inbound request have no
    influence on what is sent. *)
Theorem discovery_sends_get_without_body
        (upstream : Upstream) (s : Service) (request : Request) (path : string)
        (result : Response + HTTPException) (s' : Service)
        (Hroute : cdp_http_proxy upstream s request path = Some (result, s')) :
  (exists outbound : OutboundRequest,
      sent s' = sent s ++ (if is_configured (config s) then [outbound] else []) /\
      out_method outbound = "GET" /\
      out_content outbound = None /\
      out_url outbound =
      (str_of (cdp_origin (config s)) ++ url_path (url request))%string) /\
  forall m b : string,
    sent (snd (handle_http_request upstream s (with_method_body m b request) path))
    = sent s'.
Proof.
  unfold cdp_http_proxy in Hroute.
  destruct (_ || _); [|discriminate].
  injection Hroute as Hr. 
  assert (Hs : sent s' = sent s ++
               (if is_configured (config s) then [upstream_request s request] else [])).
  { destruct (is_configured (config s)) eqn:Hc.
    - rewrite (handle_http_request_configured _ _ _ _ Hc) in Hr.
      now injection Hr as _ <-.
    - rewrite (handle_http_request_unconfigured _ _ _ _ Hc) in Hr.
      injection Hr as _ <-. now rewrite app_nil_r. }
  split.
  - exists (upstream_request s request). repeat split; [exact Hs].
  - intros m b. rewrite Hs.
    destruct (is_configured (config s)) eqn:Hc.
    + now rewrite (handle_http_request_configured _ _ _ _ Hc).
    + rewrite (handle_http_request_unconfigured _ _ _ _ Hc). cbn [snd].
      now rewrite app_nil_r.
Qed.

(** A POST with a body and a GET without one, to a configured proxy:
    the same single GET goes upstream. *)
Lemma discovery_sends_get_without_body_witness :
  sent (snd (handle_http_request (answering "[]") local_service
               (with_method_body "GET" EmptyString
                  (with_method_body "POST" "payload" https_json_request)) EmptyString))
  = [{| out_method := "GET";
        out_url := "http://localhost:9222/json";
        out_headers := [("x-forwarded-prefix", "/cdp"); ("Host", "localhost:9222")];
        out_content := None |}].
Proof.
  exact (proj2 (discovery_sends_get_without_body (answering "[]") local_service
                  (with_method_body "POST" "payload" https_json_request) EmptyString
                  _ _ eq_refl) "GET" EmptyString).
Defined.

End Discovery.

(** ** The JSON reader has the fuel it needs *)

Section JsonReader.
Import PyStr Json.

Lemma skip_ws_length (s : string) : (String.length (skip_ws s) <= String.length s)%nat.
Proof.
  induction s as [|c r IH]; simpl; [lia|].
  destruct (is_ws c); simpl; lia.
Qed.

Lemma span_length (p : ascii -> bool) (s h t : string) :
  span p s = (h, t) -> String.length s = (String.length h + String.length t)%nat.
Proof.
  revert h t. induction s as [|c r IH]; intros h t H; simpl in H.
  - now inversion H.
  - destruct (p c).
    + destruct (span p r) as [h' t'] eqn:E. inversion H; subst.
      simpl. now rewrite (IH h' t).
    + inversion H; subst. reflexivity.
Qed.

Lemma strip_prefix_length (p s rest : string) :
  strip_prefix p s = Some rest ->
  String.length s = (String.length p + String.length rest)%nat.
Proof.
  revert s. induction p as [|a p IH]; intros s H; simpl in H.
  - now inversion H.
  - destruct s as [|b s]; [discriminate|].
    destruct (Ascii.eqb a b); [|discriminate].
    simpl. now rewrite (IH s H).
Qed.

Lemma prepend_some (h : string) (r : option (string * string)) (str rest : string) :
  prepend h r = Some (str, rest) -> exists body, r = Some (body, rest).
Proof.
  destruct r as [[b t]|]; simpl; [|discriminate].
  intros [= <- <-]. now exists b.
Qed.

Lemma scanstring_unfold (c : ascii) (r : string) :
  scanstring (String c r) =
      if Ascii.eqb c PyStr.dquote then Some (EmptyString, r)
      else if Ascii.eqb c "\"%char then
        match r with
        | EmptyString => None
        | String e r2 =>
            if Ascii.eqb e "u"%char then
              match r2 with
              | String a (String b (String c' (String d r3))) =>
                  match hex4 a b c' d with
                  | None => None
                  | Some hi =>
                      match r3 with
                      | String b1 (String b2 (String a' (String b' (String c'' (String d' r4))))) =>
                          match hex4 a' b' c'' d' with
                          | Some lo =>
                              if is_high_surrogate hi && Ascii.eqb b1 "\"%char
                                 && Ascii.eqb b2 "u"%char && is_low_surrogate lo
                              then prepend
                                     (utf8 (65536 + (hi - 55296) * 1024 + (lo - 56320)))
                                     (scanstring r4)
                              else prepend (utf8 hi) (scanstring r3)
                          | None => prepend (utf8 hi) (scanstring r3)
                          end
                      | _ => prepend (utf8 hi) (scanstring r3)
                      end
                  end
              | _ => None
              end
            else
              match unescape e with
              | Some ch => prepend (String ch EmptyString) (scanstring r2)
              | None => None
              end
        end
      else if (nat_of_ascii c <? 32)%nat then None
      else prepend (String c EmptyString) (scanstring r).
Proof. reflexivity. Qed.

Lemma scanstring_length (n : nat) :
  forall s str rest,
    (String.length s <= n)%nat ->
    scanstring s = Some (str, rest) ->
    (String.length rest < String.length s)%nat.
Proof.
  induction n as [|n IH]; intros s str rest Hn H;
    (destruct s as [|c r]; [discriminate|]); [cbn [String.length] in Hn; lia|].
  rewrite scanstring_unfold in H.
  repeat (match type of H with
          | context [if ?b then _ else _] => destruct b
          | context [match ?x with EmptyString => _ | String _ _ => _ end] =>
              is_var x; destruct x
          | context [match hex4 ?a ?b ?c ?d with _ => _ end] => destruct (hex4 a b c d)
          | context [match unescape ?e with _ => _ end] => destruct (unescape e)
          end; cbv beta iota in H; try discriminate H);
    try (injection H as _ <-; cbn [String.length] in *; lia);
    apply prepend_some in H as [body H]; apply IH in H; cbn [String.length] in *; lia.
Qed.

Lemma scan_number_length (s : string) (v : value) (rest : string) :
  scan_number s = Some (v, rest) ->
  (String.length rest < String.length s)%nat.
Proof.
  unfold scan_number. intros H.
  repeat (match type of H with
          | context [let '(_, _) := ?x in _] => destruct x as [? ?] eqn:?
          | context [match ?x with Some _ => _ | None => _ end] => destruct x as [[? ?]|] eqn:?
          end; try discriminate H).
  assert (A0 : (String.length s0 <= String.length s)%nat).
  { destruct s as [|c r]; [inversion Heqp; subst; cbn; lia|].
    destruct (Ascii.eqb c "-"); inversion Heqp; subst; cbn [String.length]; lia. }
  assert (A1 : (String.length s2 < String.length s0)%nat).
  { destruct s0 as [|c r]; [discriminate|].
    destruct (Ascii.eqb c "0"); [inversion Heqo; subst; cbn [String.length]; lia|].
    destruct (is_digit c) eqn:Hd; [|discriminate].
    injection Heqo as Hsp. cbn [span] in Hsp. rewrite Hd in Hsp.
    destruct (span is_digit r) as [h t] eqn:E. inversion Hsp; subst.
    apply span_length in E. cbn [String.length]; lia. }
  assert (A2 : (String.length s3 <= String.length s2)%nat).
  { destruct s2 as [|c r]; [inversion Heqp0; subst; lia|].
    destruct (Ascii.eqb c "."); [|inversion Heqp0; subst; lia].
    destruct (span is_digit r) as [ds r'] eqn:E. apply span_length in E.
    destruct ds; inversion Heqp0; subst; cbn [String.length] in *; lia. }
  assert (A3 : (String.length s4 <= String.length s3)%nat).
  { destruct s3 as [|c r]; [inversion Heqp1; subst; lia|].
    destruct (Ascii.eqb c "e" || Ascii.eqb c "E"); [|inversion Heqp1; subst; lia].
    destruct (match r with
              | EmptyString => (false, r)
              | String sg r' =>
                  if Ascii.eqb sg "-" then (true, r')
                  else if Ascii.eqb sg "+" then (false, r') else (false, r)
              end) as [eneg r1] eqn:Er.
    assert (B : (String.length r1 <= String.length r)%nat).
    { destruct r as [|sg r']; [inversion Er; subst; lia|].
      destruct (Ascii.eqb sg "-"); [inversion Er; subst; cbn [String.length]; lia|].
      destruct (Ascii.eqb sg "+"); inversion Er; subst; cbn [String.length]; lia. }
    destruct (span is_digit r1) as [ds r'] eqn:E. apply span_length in E.
    destruct ds; inversion Heqp1; subst; cbn [String.length] in *; lia. }
  assert (R : rest = s4) by (destruct o, o0; inversion H; reflexivity).
  subst rest. lia.
Qed.

Lemma literal_length (word : string) (v v' : value) (s rest : string) :
  PyStr.truthy word = true ->
  literal word v s = Parsed v' rest ->
  (String.length rest < String.length s)%nat.
Proof.
  unfold literal. intros Hw H.
  destruct (strip_prefix word s) as [r|] eqn:E; [|discriminate].
  injection H as _ <-. apply strip_prefix_length in E.
  destruct word; [discriminate|]. cbn [String.length] in E. lia.
Qed.

Lemma literal_not_exhausted (word : string) (v : value) (s : string) :
  literal word v s <> Exhausted.
Proof. unfold literal. destruct (strip_prefix word s); discriminate. Qed.

Lemma scan_fuel (fuel : nat) :
  (forall s, (2 * String.length s < fuel)%nat -> consumes s (scan_once fuel s)) /\
  (forall acc s, (2 * String.length s < fuel)%nat ->
                 consumes s (scan_members fuel acc s)) /\
  (forall s, (2 * String.length s + 1 < fuel)%nat ->
             consumes s (scan_items fuel s)).
Proof.
  induction fuel as [|fuel [IHo [IHm IHi]]];
    [repeat split; intros; lia|].
  split; [|split].
  - intros s Hf. cbn [scan_once].
    destruct s as [|c r]; [exact I|]. cbn [String.length] in Hf.
    destruct (Ascii.eqb c dquote).
    { destruct (scanstring r) as [[str rest]|] eqn:E; [|exact I].
      apply (scanstring_length _ _ _ _ (le_n _)) in E. cbn; lia. }
    destruct (Ascii.eqb c "{").
    { pose proof (skip_ws_length r) as L.
      destruct (skip_ws r) as [|c1 r1] eqn:E; [exact I|].
      destruct (Ascii.eqb c1 "}"); [cbn in *; lia|].
      specialize (IHm [] (String c1 r1) ltac:(cbn [String.length] in *; lia)).
      destruct (scan_members fuel [] (String c1 r1)); cbn in *; try tauto; lia. }
    destruct (Ascii.eqb c "[").
    { pose proof (skip_ws_length r) as L.
      destruct (skip_ws r) as [|c1 r1] eqn:E; [exact I|].
      destruct (Ascii.eqb c1 "]"); [cbn in *; lia|].
      specialize (IHi (String c1 r1) ltac:(cbn [String.length] in *; lia)).
      destruct (scan_items fuel (String c1 r1)); cbn in *; try tauto; lia. }
    assert (Lit : forall word v, PyStr.truthy word = true ->
                                 consumes (String c r) (literal word v (String c r))).
    { intros word v Hw. destruct (literal word v (String c r)) eqn:E; unfold consumes.
      - now apply (literal_length word v a).
      - exact I.
      - now apply literal_not_exhausted in E. }
    destruct (Ascii.eqb c "n"); [now apply Lit|].
    destruct (Ascii.eqb c "t"); [now apply Lit|].
    destruct (Ascii.eqb c "f"); [now apply Lit|].
    destruct (scan_number (String c r)) as [[v rest]|] eqn:E.
    { now apply scan_number_length in E. }
    destruct (Ascii.eqb c "N"); [now apply Lit|].
    destruct (Ascii.eqb c "I"); [now apply Lit|].
    destruct (Ascii.eqb c "-"); [now apply Lit|exact I].
  - intros acc s Hf. cbn [scan_members].
    destruct s as [|c r]; [exact I|]. cbn [String.length] in Hf.
    destruct (Ascii.eqb c dquote); [|exact I].
    destruct (scanstring r) as [[key r1]|] eqn:E; [|exact I].
    apply (scanstring_length _ _ _ _ (le_n _)) in E.
    pose proof (skip_ws_length r1) as L1.
    destruct (skip_ws r1) as [|c2 r2]; [exact I|].
    destruct (Ascii.eqb c2 ":"); [|exact I].
    pose proof (skip_ws_length r2) as L2. cbn [String.length] in L1.
    specialize (IHo (skip_ws r2) ltac:(lia)).
    destruct (scan_once fuel (skip_ws r2)) as [v r3| |]; cbn in IHo; try tauto.
    pose proof (skip_ws_length r3) as L3.
    destruct (skip_ws r3) as [|c4 r4]; [exact I|]. cbn [String.length] in L3.
    destruct (Ascii.eqb c4 "}"); [cbn; lia|].
    destruct (Ascii.eqb c4 ","); [|exact I].
    pose proof (skip_ws_length r4) as L4.
    specialize (IHm (Json.dict_set acc key v) (skip_ws r4) ltac:(lia)).
    destruct (scan_members fuel _ (skip_ws r4)); cbn in *; try tauto; lia.
  - intros s Hf. cbn [scan_items].
    specialize (IHo s ltac:(lia)).
    destruct (scan_once fuel s) as [v r1| |]; cbn in IHo; try tauto.
    pose proof (skip_ws_length r1) as L1.
    destruct (skip_ws r1) as [|c2 r2]; [exact I|]. cbn [String.length] in L1.
    destruct (Ascii.eqb c2 "]"); [cbn; lia|].
    destruct (Ascii.eqb c2 ","); [|exact I].
    pose proof (skip_ws_length r2) as L2.
    specialize (IHi (skip_ws r2) ltac:(lia)).
    destruct (scan_items fuel (skip_ws r2)); cbn in *; try tauto; lia.
Qed.

(** [loads] has the fuel it needs: it parses or reports a malformed
    text. *)
Lemma loads_not_exhausted (s : string) : loads s <> Exhausted.
Proof.
  unfold loads, loads_with.
  pose proof (skip_ws_length s) as L.
  pose proof (proj1 (scan_fuel (2 * String.length s + 2)) (skip_ws s) ltac:(lia)) as W.
  destruct (scan_once _ (skip_ws s)) as [v rest| |]; cbn in W; try tauto;
    try discriminate.
  destruct (skip_ws rest); discriminate.
Qed.
End JsonReader.

(** ** The session relay *)

Section Relay.
Import PyStr Cdp.

(** What [_handle_custom_command] decides, in the terms of the
    structural check. *)
Lemma handle_custom_command_cases
      (cfg : CDPProxyConfig) (data : string) (st : LoggingState) :
  exists st' : LoggingState,
    _handle_custom_command cfg data st =
    match control_message cfg data with
    | Some (method, msg) =>
        if contains (custom_command_domain cfg) data && params_usable cfg method msg
        then (true, st', [ClientSendJson (control_reply cfg method msg)])
        else (false, st, [])
    | None => (false, st, [])
    end.
Proof.
  unfold _handle_custom_command, control_message, params_usable, control_reply.
  destruct (contains (custom_command_domain cfg) data); cbn [negb andb].
  2:{ exists st. destruct (Json.loads data) as [[]| |]; try reflexivity.
      destruct (Json.dict_get members "method") as [[]|]; try reflexivity.
      destruct (startswith _ s); reflexivity. }
  destruct (Json.loads data) as [v rest| |]; [|exists st; reflexivity..].
  destruct v as [| | | | | | |msg]; try (exists st; reflexivity).
  destruct (Json.dict_get msg "method") as [v|]; [|exists st; reflexivity].
  destruct v as [| | | | |method| |]; try (exists st; reflexivity).
  destruct (startswith (custom_command_domain cfg ++ ".") method);
    cbn [negb]; [|exists st; reflexivity].
  destruct (String.eqb method (custom_command_domain cfg ++ ".setLoggingEnabled")).
  - destruct (Json.dict_get msg "params") as [v|].
    + destruct v; try (exists st; reflexivity).
      eexists. reflexivity.
    + eexists. reflexivity.
  - exists st. reflexivity.
Qed.



Example unknown_verb_gets_error :
  client_to_cdp_step local_config
    (text_frame (q "{'method':'CDPProxy.reset','id':3}")) logging_off =
  (true, logging_off,
   [ClientSendJson
      (Json.JObj [("id", Json.JInt 3);
                  ("error", Json.JObj [("code", Json.JInt (-32601));
                                       ("message", Json.JStr "Method not found")])])]).
Proof. reflexivity. Qed.

Example domain_as_substring_is_forwarded :
  events_of (client_to_cdp_step local_config
               (text_frame (q "{'method':'Page.navigate','params':{'url':'CDPProxy.x'}}"))
               logging_off) =
  [UpstreamSend (Text (q "{'method':'Page.navigate','params':{'url':'CDPProxy.x'}}"))] /\
  events_of (client_to_cdp_step local_config (text_frame "CDPProxy.setLoggingEnabled")
               logging_off) =
  [UpstreamSend (Text "CDPProxy.setLoggingEnabled")].
Proof. split; reflexivity. Qed.


(** The client loop sends upstream only what some text frame carried as it
    came, or what a binary frame carried. *)
Lemma forwarded_frames_unmodified
      (cfg : CDPProxyConfig) (messages : list Message) (st : LoggingState) (d : Data) :
  In (UpstreamSend d) (fst (_forward_client_to_cdp cfg messages st)) ->
  exists m, In m messages /\ message_data m = Some d.
Proof.
  revert st. induction messages as [|m rest IH]; intros st H; [destruct H|].
  cbn [_forward_client_to_cdp] in H.
  assert (Step : forall go st' evs,
             client_to_cdp_step cfg m st = (go, st', evs) ->
             In (UpstreamSend d) evs -> message_data m = Some d).
  { intros go st' evs E Hin. unfold client_to_cdp_step in E.
    destruct (String.eqb (type m) "websocket.receive").
    - destruct (message_data m) as [[data|data]|].
      + destruct (handle_custom_command_cases cfg data st) as [st1 Hc].
        rewrite Hc in E.
        destruct (control_message cfg data) as [[method msg]|].
        * destruct (contains _ _ && params_usable cfg method msg);
            injection E as _ _ <-; destruct Hin as [Hin|[]];
            [discriminate Hin|now injection Hin as <-].
        * injection E as _ _ <-. destruct Hin as [Hin|[]]. now injection Hin as <-.
      + injection E as _ _ <-. destruct Hin as [Hin|[]]. now injection Hin as <-.
      + injection E as _ _ <-. destruct Hin.
    - destruct (String.eqb (type m) "websocket.disconnect");
        injection E as _ _ <-; destruct Hin. }
  destruct (client_to_cdp_step cfg m st) as [[go st'] evs] eqn:E.
  destruct go.
  - destruct (_forward_client_to_cdp cfg rest st') as [more final] eqn:R.
    cbn [fst] in H. apply in_app_or in H as [H|H].
    + exists m. split; [now left|]. exact (Step _ _ _ eq_refl H).
    + specialize (IH st'). rewrite R in IH. destruct (IH H) as [m' [Hm' Hd]].
      exists m'. split; [now right|exact Hd].
  - exists m. split; [now left|]. exact (Step _ _ _ eq_refl H).
Qed.

(** An empty text frame is neither dispatched nor forwarded: [text or
    bytes] passes over the empty string, and the loop takes the missing
    payload for no frame. *)
Lemma empty_text_frame_dropped (cfg : CDPProxyConfig) (st : LoggingState) :
  client_to_cdp_step cfg (text_frame EmptyString) st = (true, st, []).
Proof. reflexivity. Qed.

(** In a session, a frame the control channel answers is not among the
    frames sent upstream. *)
Example session_with_control_frame :
  handle_websocket_request local_config
    (fun _ => Connected
       [FromClient (text_frame (q "{'id':1,'method':'Target.getTargets'}"));
        FromClient (text_frame (q "{'method':'CDPProxy.setLoggingEnabled','id':7,'params':{'enabled':true}}"));
        FromUpstream (Text (q "{'id':1,'result':{}}"))])
    false "page/1" =
  [ClientAccept;
   UpstreamConnect "ws://localhost:9222/devtools/page/1" 20971520 20 20;
   UpstreamSend (Text (q "{'id':1,'method':'Target.getTargets'}"));
   ClientSendJson (Json.JObj [("id", Json.JInt 7); ("result", Json.JObj [])]);
   ClientSendText (q "{'id':1,'result':{}}");
   UpstreamClose;
   ClientClose 1000 None].
Proof. reflexivity. Qed.

(** C8, as amended: a session that arrives while the proxy is not
    configured is closed with code 1011 and the reason "CDP proxy not
    configured"; the relay does not accept it first and does not contact
    the upstream endpoint. *)
Theorem unconfigured_session_closed
        (cfg : CDPProxyConfig) (connect : string -> ConnectOutcome)
        (initial_state : bool) (path : string)
        (Hunconfigured : is_configured cfg = false) :
  handle_websocket_request cfg connect initial_state path =
  [ClientClose 1011%Z (Some "CDP proxy not configured")] /\
  ~ In ClientAccept (handle_websocket_request cfg connect initial_state path) /\
  forall target max_size ping_interval ping_timeout,
    ~ In (UpstreamConnect target max_size ping_interval ping_timeout)
         (handle_websocket_request cfg connect initial_state path).
Proof.
  unfold handle_websocket_request. rewrite Hunconfigured. cbn [negb].
  split; [reflexivity|]. split.
  - intros [H|[]]. discriminate H.
  - intros ? ? ? ? [H|[]]. discriminate H.
Qed.

(** Where the environment sets neither variable. *)
Lemma unconfigured_session_closed_witness :
  handle_websocket_request (config unconfigured_service) silent_upstream false "page/1" =
  [ClientClose 1011%Z (Some "CDP proxy not configured")].
Proof.
  exact (proj1 (unconfigured_session_closed (config unconfigured_service)
                  silent_upstream false "page/1" eq_refl)).
Defined.

(** C8, as stated, fails: the close is the first and only thing the relay
    does with the inbound connection, which it never accepted. *)
Lemma unconfigured_session_not_accepted :
  is_configured (config unconfigured_service) = false /\
  handle_websocket_request (config unconfigured_service) silent_upstream false "page/1" =
  [ClientClose 1011%Z (Some "CDP proxy not configured")] /\
  ~ (forall (cfg : CDPProxyConfig) (connect : string -> ConnectOutcome)
            (initial_state : bool) (path : string),
        is_configured cfg = false ->
        exists (reason : string) (rest : list WsEvent),
          handle_websocket_request cfg connect initial_state path =
          ClientAccept :: ClientClose 1011%Z (Some reason) :: rest).
Proof.
  split; [reflexivity|]. split; [reflexivity|].
  intros C.
  destruct (C (config unconfigured_service) silent_upstream false "page/1" eq_refl)
    as [reason [rest H]].
  discriminate H.
Qed.

End Relay.

(* ================================================================== *)
(** * Part III: further properties of the gateway and the proxy        *)
(* ================================================================== *)


(** ** The cache stays within its bound *)

Section CacheBound.
Context {V : Type}.
Import SimpleCache.

Lemma store_length (d : list (string * (Z * V))) (k : string) (e : Z * V) :
  (List.length (store d k e) <= S (List.length d))%nat.
Proof.
  induction d as [|[k0 e0] d IH]; simpl; [lia|].
  destruct (String.eqb k0 k); simpl; lia.
Qed.

Lemma store_keys (d : list (string * (Z * V))) (k k' : string) (e : Z * V) :
  In k (map fst (store d k' e)) -> k = k' \/ In k (map fst d).
Proof.
  induction d as [|[k0 e0] d IH]; simpl.
  - intros [H|[]]. now left.
  - destruct (String.eqb_spec k0 k') as [->|Hne]; simpl.
    + intros [H|H]; [now left|right; now right].
    + intros [H|H]; [right; now left|].
      destruct (IH H) as [E|E]; [now left|right; now right].
Qed.

Lemma pop_keys (d : list (string * (Z * V))) (k k' : string) :
  In k (map fst (pop d k')) -> In k (map fst d).
Proof.
  induction d as [|[k0 e0] d IH]; simpl; [tauto|].
  destruct (String.eqb k0 k'); simpl; [now right|].
  intros [H|H]; [now left|right; now apply IH].
Qed.

Lemma pop_in_order_keys (keys : list string) (th : nat)
      (d : list (string * (Z * V))) (k : string) :
  In k (map fst (pop_in_order keys th d)) -> In k (map fst d).
Proof.
  revert d. induction keys as [|k0 keys IH]; intros d; simpl; [tauto|].
  destruct (negb (over th (pop d k0))).
  - apply pop_keys.
  - intros H. apply IH in H. now apply pop_keys in H.
Qed.

Lemma prune_keys (c : t V) (now : Z) (k : string) :
  In k (map fst (_cache (_prune c now))) -> In k (map fst (_cache c)).
Proof.
  unfold _prune.
  assert (E : forall k, In k (map fst (_cache (_remove_expired c now))) ->
                        In k (map fst (_cache c))).
  { intros k0 H. simpl in H. apply in_map_iff in H as [x [<- Hx]].
    apply filter_In in Hx as [Hx _]. now apply in_map. }
  destruct (_over_threshold c).
  - destruct (_over_threshold (_remove_expired c now)).
    + intros H. apply E. simpl in H. now apply pop_in_order_keys in H.
    + apply E.
  - destruct (_over_threshold c); [|tauto].
    simpl. apply pop_in_order_keys.
Qed.

(** [set] adds no key but its own. *)
Lemma set_keys (c : t V) (k k' : string) (v : V) (timeout : option Z) (now : Z) :
  In k (map fst (_cache (set c k' v timeout now))) ->
  k = k' \/ In k (map fst (_cache c)).
Proof.
  unfold set. simpl. intros H. apply store_keys in H as [H|H]; [now left|].
  right. now apply prune_keys in H.
Qed.

Lemma insert_by_expiry_perm (x : string * (Z * V)) (l : list (string * (Z * V))) :
  Permutation (x :: l) (insert_by_expiry x l).
Proof.
  induction l as [|y l IH]; simpl; [reflexivity|].
  destruct (fst (snd x) <=? fst (snd y))%Z; [reflexivity|].
  rewrite perm_swap. now apply perm_skip.
Qed.

Lemma sorted_by_expiry_perm (l : list (string * (Z * V))) :
  Permutation l (sorted_by_expiry l).
Proof.
  induction l as [|x l IH]; simpl; [reflexivity|].
  rewrite <- insert_by_expiry_perm. now apply perm_skip.
Qed.

Lemma pop_perm (d : list (string * (Z * V))) (k : string) :
  In k (map fst d) -> Permutation (map fst d) (k :: map fst (pop d k)).
Proof.
  induction d as [|[k0 e0] d IH]; simpl; [tauto|].
  destruct (String.eqb_spec k0 k) as [->|Hne]; [reflexivity|].
  intros [H|H]; [contradiction|].
  simpl. rewrite (IH H). apply perm_swap.
Qed.

(** Popping the keys of the cache one by one ends under the threshold. *)
Lemma pop_in_order_under (keys : list string) (th : nat)
      (d : list (string * (Z * V))) :
  Permutation (map fst d) keys ->
  over th (pop_in_order keys th d) = false \/ pop_in_order keys th d = d /\ d = [].
Proof.
  revert d. induction keys as [|k keys IH]; intros d P.
  - right. apply Permutation_sym, Permutation_nil in P.
    destruct d; [split; reflexivity|discriminate].
  - simpl.
    assert (Hin : In k (map fst d))
      by (apply (Permutation_in k (Permutation_sym P)); now left).
    pose proof (pop_perm d k Hin) as Pk.
    assert (P' : Permutation (map fst (pop d k)) keys).
    { apply (Permutation_cons_inv (a := k)).
      now rewrite <- Pk. }
    destruct (over th (pop d k)) eqn:Ho; simpl.
    + destruct (IH _ P') as [H|[H1 H2]]; [now left|].
      rewrite H2 in Ho. discriminate Ho.
    + now left.
Qed.

Lemma prune_under (c : t V) (now : Z) : _over_threshold (_prune c now) = false.
Proof.
  unfold _prune.
  set (c1 := if _over_threshold c then _remove_expired c now else c).
  destruct (_over_threshold c1) eqn:H1; [|exact H1].
  unfold _over_threshold, _remove_older. simpl.
  destruct (pop_in_order_under (map fst (sorted_by_expiry (_cache c1)))
              (_threshold c1) (_cache c1)) as [H|[_ H]].
  - apply Permutation_map, sorted_by_expiry_perm.
  - exact H.
  - unfold _over_threshold in H1. rewrite H in H1. discriminate H1.
Qed.

Lemma prune_threshold (c : t V) (now : Z) : _threshold (_prune c now) = _threshold c.
Proof.
  unfold _prune. destruct (_over_threshold c); simpl;
    repeat match goal with |- context [if ?b then _ else _] => destruct b end;
    reflexivity.
Qed.

Lemma set_threshold (c : t V) (k : string) (v : V) (timeout : option Z) (now : Z) :
  _threshold (set c k v timeout now) = _threshold c.
Proof. unfold set. simpl. apply prune_threshold. Qed.

(** After [set] the cache holds at most one entry more than its
    threshold. *)
Lemma set_length_bound (c : t V) (k : string) (v : V) (timeout : option Z) (now : Z) :
  (List.length (_cache (set c k v timeout now)) <= S (_threshold c))%nat.
Proof.
  unfold set. simpl.
  pose proof (prune_under c now) as U. unfold _over_threshold, over in U.
  apply Nat.ltb_ge in U. rewrite prune_threshold in U.
  pose proof (store_length (_cache (_prune c now)) k
                (_normalize_timeout c timeout now, v)). lia.
Qed.

End CacheBound.


(** ** The stores of the service *)

Section Stores.
Import Auth.

(** X1: however many tickets are issued and checked, the ticket cache of a
    service holds at most one entry more than its threshold: 501 for the
    cache that [AuthService(config)] creates. *)
Theorem ticket_cache_bounded (cfg : AuthConfig) (ops : list TicketOp) :
  (List.length
     (SimpleCache._cache
        (ticket_cache
           (service (run_ops ops {| service := AuthService_init cfg; calls := [] |}))))
   <= 501)%nat.
Proof.
  set (w0 := {| service := AuthService_init cfg; calls := [] |}).
  assert (G : forall ops w,
             SimpleCache._threshold (ticket_cache (service w)) = 500%nat ->
             (List.length (SimpleCache._cache (ticket_cache (service w))) <= 501)%nat ->
             (List.length
                (SimpleCache._cache (ticket_cache (service (run_ops ops w)))) <= 501)%nat).
  { clear. induction ops as [|op ops IH]; intros w Ht Hl; [exact Hl|].
    simpl. destruct op as [u now|t now].
    - apply IH; cbn [run_op]; rewrite create_ticket_cache.
      + now rewrite set_threshold.
      + rewrite <- Ht. apply set_length_bound.
    - apply IH; assumption. }
  apply G; [reflexivity|]. simpl. lia.
Qed.

(** The JWT cache after a verification holds the token verified, if
    [jwt.decode] accepted it, and otherwise only keys it held before. *)
Lemma validate_jwt_keys (decode : Decoder) (w : World) (token : string) (now : Z)
      (k : string) :
  In k (cached_keys (jwt_cache (service (snd (_validate_jwt decode token now w))))) ->
  (k = token /\ accepted_by decode w token) \/
  In k (cached_keys (jwt_cache (service w))).
Proof.
  unfold _validate_jwt, bind, self, call_decode, cached_keys.
  cbn -[Z.sub Z.gtb Z.eqb SimpleCache.set].
  destruct (negb (key_truthy _)); [now right|].
  destruct (cached _ token now); [now right|].
  cbn -[Z.sub Z.gtb Z.eqb SimpleCache.set].
  destruct (decode token _ _) as [payload| |msg] eqn:Hd; try (now right).
  assert (S : forall ttl,
             In k (map fst (SimpleCache._cache
                              (SimpleCache.set (jwt_cache (service w)) token true
                                               (Some ttl) now))) ->
             (k = token /\ accepted_by decode w token) \/
             In k (map fst (SimpleCache._cache (jwt_cache (service w))))).
  { intros ttl H. apply set_keys in H as [->|H]; [left|now right].
    split; [reflexivity|]. now exists payload. }
  destruct (option_map _ (Json.dict_get payload "exp")) as [[[] [exp|]]|];
    cbn -[Z.sub Z.gtb Z.eqb SimpleCache.set]; try apply S.
  destruct (exp - now >? 0)%Z; cbn -[Z.sub Z.gtb Z.eqb SimpleCache.set];
    [apply S|now right].
Qed.

Lemma validate_jwt_config (decode : Decoder) (w : World) (token : string) (now : Z) :
  config (service (snd (_validate_jwt decode token now w))) = config (service w).
Proof.
  unfold _validate_jwt, bind, self, call_decode.
  cbn -[Z.sub Z.gtb Z.eqb SimpleCache.set].
  destruct (negb (key_truthy _)); [reflexivity|].
  destruct (cached _ token now); [reflexivity|].
  cbn -[Z.sub Z.gtb Z.eqb SimpleCache.set].
  destruct (decode token _ _) as [payload| |msg]; try reflexivity.
  destruct (option_map _ (Json.dict_get payload "exp")) as [[[] [exp|]]|];
    cbn -[Z.sub Z.gtb Z.eqb SimpleCache.set]; try reflexivity.
  destruct (exp - now >? 0)%Z; reflexivity.
Qed.

(** X2: the JWT cache only ever holds tokens that [jwt.decode] accepted.
    Starting from an empty cache, after any sequence of verifications every
    key of the cache is a token that PyJWT accepts under the configured key
    and algorithms. *)
Theorem jwt_cache_holds_accepted_tokens
        (decode : Decoder) (requests : list (string * Z)) (w : World) (k : string)
        (Hempty : SimpleCache._cache (jwt_cache (service w)) = [])
        (Hkey : In k (cached_keys (jwt_cache (service (run_jwt decode requests w))))) :
  accepted_by decode w k.
Proof.
  assert (G : forall requests w',
             config (service w') = config (service w) ->
             (forall k, In k (cached_keys (jwt_cache (service w'))) ->
                        accepted_by decode w k) ->
             forall k, In k (cached_keys (jwt_cache (service (run_jwt decode requests w')))) ->
                       accepted_by decode w k).
  { clear. induction requests as [|[token now] requests IH]; intros w' Hc Hinv k Hk;
      [now apply Hinv|].
    simpl in Hk. apply IH in Hk; [exact Hk| |].
    - now rewrite validate_jwt_config.
    - intros k' Hk'. cbn [fst snd] in Hk'.
      apply validate_jwt_keys in Hk' as [[-> [payload Hp]]|Hk']; [|now apply Hinv].
      exists payload. now rewrite <- Hc. }
  apply (G requests w); [reflexivity| |exact Hkey].
  intros k' Hk'. unfold cached_keys in Hk'. rewrite Hempty in Hk'. destruct Hk'.
Qed.

Lemma jwt_cache_holds_accepted_tokens_witness :
  accepted_by (fun token _ _ =>
                 if String.eqb token "good" then Decoded [("exp", Json.JInt 2000)]
                 else PyJWTError "Signature verification failed")
              keyed_world "good".
Proof.
  apply (jwt_cache_holds_accepted_tokens _ [("bad", 1000%Z); ("good", 1001%Z)]
                                         keyed_world "good").
  - reflexivity.
  - vm_compute. now left.
Defined.

End Stores.


(** ** Verification of bearer tokens *)

Section Verifier.
Import Auth.

(** X3: no negative caching.  With a key configured and an empty JWT cache,
    requests whose tokens PyJWT rejects each reach [jwt.decode], in order,
    and leave the cache empty: a rejected token is verified again on every
    retry. *)
Theorem rejected_tokens_reverified
        (decode : Decoder) (requests : list (string * Z)) (w : World)
        (Hkey : key_truthy (jwt_public_key (config (service w))) = true)
        (Hempty : SimpleCache._cache (jwt_cache (service w)) = [])
        (Hrejected :
           forall r, In r requests ->
                     forall payload,
                       decode (fst r) (the_key (jwt_public_key (config (service w))))
                              (jwt_algorithms (config (service w))) <> Decoded payload) :
  calls (run_jwt decode requests w) =
  calls w ++ map (fun r => JwtDecode (fst r)
                             (the_key (jwt_public_key (config (service w))))
                             (jwt_algorithms (config (service w)))) requests /\
  SimpleCache._cache (jwt_cache (service (run_jwt decode requests w))) = [] /\
  config (service (run_jwt decode requests w)) = config (service w).
Proof.
  revert w Hkey Hempty Hrejected.
  induction requests as [|[token now] requests IH]; intros w Hkey Hempty Hrej.
  - simpl. rewrite app_nil_r. repeat split; assumption.
  - assert (Step : snd (_validate_jwt decode token now w) =
                   with_call (JwtDecode token
                                (the_key (jwt_public_key (config (service w))))
                                (jwt_algorithms (config (service w)))) w).
    { unfold _validate_jwt, bind, self, call_decode.
      cbn -[Z.sub Z.gtb Z.eqb SimpleCache.set].
      rewrite Hkey. cbn [negb].
      unfold cached, SimpleCache.get. rewrite Hempty. cbn [SimpleCache.lookup].
      cbn -[Z.sub Z.gtb Z.eqb SimpleCache.set].
      destruct (decode token _ _) as [payload| |msg] eqn:Hd; try reflexivity.
      exfalso. apply (Hrej (token, now) (or_introl eq_refl) payload). exact Hd. }
    change (run_jwt decode ((token, now) :: requests) w)
      with (run_jwt decode requests (snd (_validate_jwt decode token now w))).
    rewrite Step.
    destruct (IH (with_call (JwtDecode token
                               (the_key (jwt_public_key (config (service w))))
                               (jwt_algorithms (config (service w)))) w))
      as [Hc [He Hcfg]]; try assumption.
    + intros r Hr. apply Hrej. now right.
    + cbn [with_call service config] in *.
      rewrite Hc, He, Hcfg. cbn [calls with_call]. rewrite <- app_assoc.
      repeat split; reflexivity.
Qed.

Lemma rejected_tokens_reverified_witness :
  calls (run_jwt rejecting [("tok", 1000%Z); ("tok", 1001%Z)] keyed_world) =
  [JwtDecode "tok" "PUBLIC KEY" ["RS256"]; JwtDecode "tok" "PUBLIC KEY" ["RS256"]].
Proof.
  refine (proj1 (rejected_tokens_reverified rejecting
                   [("tok", 1000%Z); ("tok", 1001%Z)] keyed_world eq_refl eq_refl _)).
  intros r _ payload. discriminate.
Defined.

(** X4: a token with an integer expiry claim is served from the cache
    exactly until that time: verified at [t1] before its expiry, it is
    found in the cache at [t2] if and only if [t2] is before the expiry. *)
Theorem cached_exactly_until_expiry
        (decode : Decoder) (w : World) (token : string) (t1 t2 : Z)
        (payload : Json.dict) (exp : Z)
        (Hkey : key_truthy (jwt_public_key (config (service w))) = true)
        (Hfresh : cached (jwt_cache (service w)) token t1 = false)
        (Hdecoded : decode token (the_key (jwt_public_key (config (service w))))
                           (jwt_algorithms (config (service w))) = Decoded payload)
        (Hexp : Json.dict_get payload "exp" = Some (Json.JInt exp))
        (Hclock : (0 <= t1 < exp)%Z) :
  cached (jwt_cache (service (snd (_validate_jwt decode token t1 w)))) token t2 =
  (t2 <? exp)%Z.
Proof.
  rewrite (validate_jwt_decoded decode w token t1 payload Hkey Hfresh Hdecoded), Hexp.
  destruct (Z.eqb_spec exp 0) as [->|_]; [lia|].
  destruct (Z.gtb_spec (exp - t1) 0) as [_|]; [|lia].
  cbn [snd with_jwt_cache service jwt_cache].
  unfold cached, SimpleCache.get. rewrite lookup_set_same.
  unfold SimpleCache._normalize_timeout.
  destruct (Z.gtb_spec (exp - t1) 0) as [_|]; [|lia].
  replace (t1 + (exp - t1))%Z with exp by lia.
  destruct (Z.eqb_spec exp 0) as [|_]; [lia|]. cbn [orb].
  destruct (Z.gtb_spec exp t2), (Z.ltb_spec t2 exp); try lia; reflexivity.
Qed.

Lemma cached_exactly_until_expiry_witness :
  cached (jwt_cache (service (snd (_validate_jwt (accepting [("exp", Json.JInt 2000)])
                                                 "tok" 1000 keyed_world))))
         "tok" 2000 = false.
Proof.
  exact (cached_exactly_until_expiry (accepting [("exp", Json.JInt 2000)]) keyed_world
           "tok" 1000 2000 [("exp", Json.JInt 2000)] 2000
           eq_refl eq_refl eq_refl eq_refl (conj (Zle_bool_imp_le 0 1000 eq_refl) eq_refl)).
Defined.

End Verifier.


(** ** The configuration of the gateway *)

Section AuthConfiguration.
Import PyStr Auth.













End AuthConfiguration.


(** ** From issuance to the gateway *)

Section StringFacts.
Import PyStr Urllib.














End StringFacts.


(** ** The routes of the gateway *)

Section Routes.
Import PyStr Auth Server.



End Routes.

(** ** The Authorization header *)

Section Bearer.
Import PyStr Auth.






End Bearer.


(** ** The configuration of the proxy *)

Section ProxyConfiguration.
Import PyStr Urllib Cdp.
















End ProxyConfiguration.


(** ** What the discovery proxy leaves alone *)

Section Passthrough.
Import PyStr Cdp.











End Passthrough.

(** ** The headers sent upstream *)

Section OutboundHeaders.
Import PyStr Cdp.











End OutboundHeaders.


(** ** Sessions as a whole *)

Section Sessions.
Import PyStr Cdp.

Lemma collect_app {A B : Type} (f : A -> option B) (l1 l2 : list A) :
  Urllib.collect f (l1 ++ l2) = (Urllib.collect f l1 ++ Urllib.collect f l2)%list.
Proof.
  induction l1 as [|x l1 IH]; cbn; [reflexivity|].
  destruct (f x); cbn; now rewrite IH.
Qed.

(** One turn of the client loop: whether it goes on depends on the type of
    the message only, and what it sends does not depend on the logging
    state. *)
Lemma client_step_events (cfg : CDPProxyConfig) (m : Message) (st : LoggingState) :
  exists st' : LoggingState,
    client_to_cdp_step cfg m st =
    (negb (is_disconnect m), st', events_of (client_to_cdp_step cfg m logging_off)).
Proof.
  unfold client_to_cdp_step, is_disconnect, events_of.
  destruct (String.eqb (type m) "websocket.receive"); cbn [negb andb].
  - destruct (message_data m) as [[data|b]|]; try (exists st; reflexivity).
    destruct (handle_custom_command_cases cfg data st) as [st1 E1].
    destruct (handle_custom_command_cases cfg data logging_off) as [st2 E2].
    rewrite E1, E2.
    destruct (control_message cfg data) as [[method msg]|]; [|exists st; reflexivity].
    destruct (contains _ _ && params_usable cfg method msg);
      [exists st1|exists st]; reflexivity.
  - destruct (String.eqb (type m) "websocket.disconnect"); exists st; reflexivity.
Qed.

(** What one turn sends: at most the frame itself upstream, at most a reply
    of the control channel to the client, never a frame of the relay and
    never a close. *)
Lemma client_step_sends (cfg : CDPProxyConfig) (m : Message) :
  let evs := events_of (client_to_cdp_step cfg m logging_off) in
  upstream_sends evs =
  match forwarded cfg (FromClient m) with Some d => [d] | None => [] end /\
  client_deliveries evs = [] /\
  forallb is_send evs = true.
Proof.
  unfold client_to_cdp_step, events_of, forwarded, answered_locally.
  destruct (String.eqb (type m) "websocket.receive").
  - destruct (message_data m) as [[data|b]|]; try (repeat split; reflexivity).
    destruct (handle_custom_command_cases cfg data logging_off) as [st' E].
    rewrite E.
    destruct (control_message cfg data) as [[method msg]|]; [|repeat split; reflexivity].
    destruct (contains _ _ && params_usable cfg method msg); repeat split; reflexivity.
  - destruct (String.eqb (type m) "websocket.disconnect"); repeat split; reflexivity.
Qed.


Lemma filter_none {A : Type} (p r : A -> bool) (l : list A) :
  (forall x, p x = true -> r x = false) -> forallb p l = true -> filter r l = [].
Proof.
  intros I. induction l as [|x l IH]; cbn; [reflexivity|].
  intros H. apply andb_true_iff in H as [Hx Hl]. now rewrite (I x Hx), IH.
Qed.

Lemma relay_logging (cfg : CDPProxyConfig) (inputs : list SessionInput)
      (st1 st2 : LoggingState) :
  relay cfg inputs st1 = relay cfg inputs st2.
Proof.
  revert st1 st2. induction inputs as [|[m|d] rest IH]; intros st1 st2;
    cbn [relay]; [reflexivity| |].
  - destruct (client_step_events cfg m st1) as [s1 E1].
    destruct (client_step_events cfg m st2) as [s2 E2].
    rewrite E1, E2.
    destruct (negb (is_disconnect m)); [|reflexivity].
    now rewrite (IH s1 s2).
  - now rewrite (IH st1 st2).
Qed.

Lemma relay_summary (cfg : CDPProxyConfig) (inputs : list SessionInput)
      (st : LoggingState) :
  snd (relay cfg inputs st) = client_disconnects inputs /\
  upstream_sends (fst (relay cfg inputs st)) =
  Urllib.collect (forwarded cfg) (until_disconnect inputs) /\
  client_deliveries (fst (relay cfg inputs st)) =
  Urllib.collect delivered (until_disconnect inputs) /\
  forallb is_send (fst (relay cfg inputs st)) = true.
Proof.
  revert st. induction inputs as [|[m|d] rest IH]; intros st; cbn [relay].
  - repeat split; reflexivity.
  - destruct (client_step_events cfg m st) as [st' E]. rewrite E.
    destruct (client_step_sends cfg m) as (S1 & S2 & S3). cbv zeta in *.
    cbn [until_disconnect client_disconnects existsb].
    destruct (is_disconnect m) eqn:D; cbn [negb orb].
    + cbn [fst snd]. unfold is_disconnect in D. apply andb_true_iff in D as [_ D].
      rewrite D, S2, S3. rewrite S1.
      unfold forwarded. 
      unfold is_disconnect in *.
      destruct (String.eqb (type m) "websocket.receive") eqn:R.
      * apply String.eqb_eq in R, D. rewrite R in D. discriminate D.
      * repeat split; reflexivity.
    + destruct (IH st') as (I1 & I2 & I3 & I4).
      destruct (relay cfg rest st') as [more gone]. cbn [fst snd] in *.
      unfold upstream_sends, client_deliveries in *.
      rewrite !collect_app, forallb_app, S1, S2, S3, I1, I2, I3, I4.
      cbn [Urllib.collect delivered app andb].
      repeat split.
      destruct (forwarded cfg (FromClient m)); reflexivity.
  - destruct (IH st) as (I1 & I2 & I3 & I4).
    destruct (relay cfg rest st) as [more gone]. cbn [fst snd] in *.
    cbn [until_disconnect client_disconnects existsb orb].
    unfold upstream_sends, client_deliveries in *.
    rewrite !collect_app, forallb_app, I1, I2, I3, I4.
    destruct d; repeat split; reflexivity.
Qed.

(** The loop of [_forward_client_to_cdp] is the relay on a session in which
    the upstream side sends nothing, the loop of [_forward_cdp_to_client]
    the relay on one in which the client sends nothing. *)
Lemma relay_one_direction (cfg : CDPProxyConfig) (st : LoggingState)
      (messages : list Message) (frames : list Data) :
  fst (_forward_client_to_cdp cfg messages st) =
  fst (relay cfg (map FromClient messages) st) /\
  _forward_cdp_to_client frames = fst (relay cfg (map FromUpstream frames) st).
Proof.
  split.
  - revert st. induction messages as [|m rest IH]; intros st; [reflexivity|].
    cbn [_forward_client_to_cdp relay map].
    destruct (client_to_cdp_step cfg m st) as [[[] st'] evs]; [|reflexivity].
    specialize (IH st').
    destruct (_forward_client_to_cdp cfg rest st'), (relay cfg (map FromClient rest) st').
    cbn [fst] in *. now rewrite IH.
  - induction frames as [|d rest IH]; [reflexivity|].
    cbn [relay map]. unfold _forward_cdp_to_client in *. cbn [flat_map].
    destruct (relay cfg (map FromUpstream rest) st). cbn [fst] in *. now rewrite IH.
Qed.




(** X16: the connection to the upstream endpoint.  The proxy contacts the
    upstream endpoint at most once per session, at
    [ws://<netloc>/devtools/<path>] and only when it is configured; it
    closes that connection exactly once where the endpoint accepted it,
    after everything it relayed, and sends nothing upstream otherwise. *)
Theorem upstream_opened_and_closed_once
        (cfg : CDPProxyConfig) (connect : string -> ConnectOutcome)
        (initial_state : bool) (path : string) :
  let events := handle_websocket_request cfg connect initial_state path in
  let target := ("ws://" ++ str_of (cdp_netloc cfg) ++ "/devtools/" ++ path)%string in
  let accepted :=
    is_configured cfg &&
    match connect target with Connected _ => true | _ => false end in
  (filter is_upstream_connect events =
   if is_configured cfg
   then [UpstreamConnect target (websocket_max_size cfg) (websocket_ping_interval cfg)
                         (websocket_ping_timeout cfg)]
   else []) /\
  (filter is_upstream_close events = if accepted then [UpstreamClose] else []) /\
  (accepted = false -> upstream_sends events = []) /\
  (forall pre post, events = (pre ++ UpstreamClose :: post)%list ->
                    upstream_sends post = []).
Proof.
  cbv zeta. unfold handle_websocket_request.
  destruct (is_configured cfg); cbn [negb andb].
  { cbv zeta.
    set (target := ("ws://" ++ str_of (cdp_netloc cfg) ++ "/devtools/" ++ path)%string).
    destruct (connect target) as [inputs| |c r|].
    - destruct (relay_summary cfg inputs {| enabled := initial_state |}) as (_ & _ & _ & I4).
      destruct (relay cfg inputs {| enabled := initial_state |}) as [evs gone].
      cbn [fst] in I4.
      cbn [filter is_upstream_connect is_upstream_close].
      rewrite !filter_app.
      rewrite (filter_none is_send is_upstream_connect evs) by (now intros [] || exact I4).
      rewrite (filter_none is_send is_upstream_close evs) by (now intros [] || exact I4).
      repeat split; try (destruct gone; reflexivity); try discriminate.
      intros pre post E.
      assert (P : forall l, forallb is_send l = true ->
                  forall pre0, (l ++ [UpstreamClose] ++
                                (if gone then [] else [ClientClose 1000%Z None]))%list
                               = (pre0 ++ UpstreamClose :: post)%list ->
                  upstream_sends post = []).
      { clear. induction l as [|x l IH]; intros Hl pre0 E0.
        - destruct pre0 as [|y pre0]; cbn in E0.
          + injection E0 as <-. now destruct gone.
          + injection E0 as _ E0. destruct gone.
            * now destruct pre0.
            * destruct pre0 as [|z pre0]; [discriminate|].
              injection E0 as _ E0. now destruct pre0.
        - cbn [forallb] in Hl. apply andb_true_iff in Hl as [Hx Hl].
          destruct pre0 as [|y pre0]; cbn in E0.
          + injection E0 as -> _. discriminate Hx.
          + injection E0 as _ E0. exact (IH Hl pre0 E0). }
      destruct pre as [|e0 pre]; [discriminate E|]. injection E as _ E.
      destruct pre as [|e1 pre]; [discriminate E|]. injection E as _ E.
      exact (P evs I4 pre E).
    - repeat split.
      intros pre post E.
      destruct pre as [|e0 [|e1 [|e2 [|e3 pre]]]]; discriminate E.
    - repeat split.
      intros pre post E.
      destruct pre as [|e0 [|e1 [|e2 [|e3 pre]]]]; discriminate E.
    - repeat split.
      intros pre post E.
      destruct pre as [|e0 [|e1 [|e2 [|e3 pre]]]]; discriminate E. }
  repeat split.
  intros pre post E. destruct pre as [|e0 [|e1 pre]]; discriminate E.
Qed.

(** An upstream endpoint that refuses the connection gets no frame. *)
Lemma upstream_opened_and_closed_once_witness :
  upstream_sends
    (handle_websocket_request local_config (fun _ => ConnectFailed) false "page/1") = [].
Proof.
  exact (proj1 (proj2 (proj2 (upstream_opened_and_closed_once local_config
                                (fun _ => ConnectFailed) false "page/1")))
               eq_refl).
Defined.

(** X17: logging has no part in the relay.  Whether the root logger is
    enabled for DEBUG when the session starts, and whatever
    [setLoggingEnabled] switched since, the proxy does the same on both
    connections. *)
Theorem logging_does_not_change_session
        (cfg : CDPProxyConfig) (connect : string -> ConnectOutcome)
        (path : string) (inputs : list SessionInput) (st : LoggingState) :
  handle_websocket_request cfg connect true path =
  handle_websocket_request cfg connect false path /\
  relay cfg inputs st = relay cfg inputs logging_off.
Proof.
  split; [|apply relay_logging].
  unfold handle_websocket_request. destruct (is_configured cfg); [|reflexivity].
  cbn [negb]. cbv zeta. destruct (connect _); try reflexivity.
  now rewrite (relay_logging cfg inputs0 {| enabled := true |} {| enabled := false |}).
Qed.

End Sessions.


(** ** The life of the application *)

Section Lifecycle.
Import PyStr Cdp Server.

Lemma upstream_request_config (s s0 : Service) (request : Request) :
  config s = config s0 -> upstream_request s request = upstream_request s0 request.
Proof. intros E. unfold upstream_request. now rewrite E. Qed.

Lemma route_step (upstream : Upstream) (app : App) (s : Service)
      (request : Request) (path : string) :
  cdp_service app = Some s ->
  match cdp_http_proxy_route app upstream request path with
  | Some (_, app') => app'
  | None => app
  end =
  {| auth_service := auth_service app;
     cdp_service :=
       Some (if routed request && is_configured (config s)
             then {| config := config s; http_client := true;
                     sent := sent s ++ [upstream_request s request] |}
             else s) |}.
Proof.
  intros Hs. unfold cdp_http_proxy_route, _get_shared_cdp_service, cdp_http_proxy.
  rewrite Hs. fold (routed request).
  destruct (routed request); cbn [andb].
  - destruct (is_configured (config s)) eqn:C.
    + now rewrite (handle_http_request_configured upstream s request path C).
    + now rewrite (handle_http_request_unconfigured upstream s request path C).
  - destruct app. cbn in *. now rewrite Hs.
Qed.

Lemma serve_from (upstream : Upstream) (requests : list (Request * string))
      (app : App) (s : Service) :
  cdp_service app = Some s ->
  exists s' : Service,
    cdp_service (serve upstream requests app) = Some s' /\
    auth_service (serve upstream requests app) = auth_service app /\
    config s' = config s /\
    sent s' =
    (sent s ++
     if is_configured (config s)
     then map (fun r => upstream_request s (fst r))
              (filter (fun r => routed (fst r)) requests)
     else [])%list /\
    http_client s' =
    http_client s ||
    (is_configured (config s) && existsb (fun r => routed (fst r)) requests).
Proof.
  revert app s. induction requests as [|[request path] rest IH]; intros app s Hs.
  - exists s. cbn. repeat split; try assumption.
    + destruct (is_configured (config s)); now rewrite app_nil_r.
    + now rewrite andb_false_r, orb_false_r.
  - change (serve upstream ((request, path) :: rest) app)
      with (serve upstream rest
              match cdp_http_proxy_route app upstream request path with
              | Some (_, app') => app'
              | None => app
              end).
    rewrite (route_step upstream app s request path Hs).
    cbn [filter existsb fst].
    destruct (routed request) eqn:R; cbn [andb orb].
    + destruct (is_configured (config s)) eqn:C.
      * match goal with
        | |- context [serve upstream rest ?a] => set (app1 := a)
        end.
        destruct (IH app1 _ eq_refl) as (s' & I1 & I2 & I3 & I4 & I5).
        exists s'. cbn [config sent http_client] in *. rewrite C in *.
        repeat split; try assumption.
        -- rewrite I4, <- app_assoc. apply f_equal. cbn [map fst List.app].
           apply f_equal. apply map_ext. intros r. now apply upstream_request_config.
        -- rewrite I5. now rewrite orb_true_r.
      * match goal with
        | |- context [serve upstream rest ?a] => set (app1 := a)
        end.
        destruct (IH app1 s eq_refl) as (s' & I1 & I2 & I3 & I4 & I5).
        exists s'. rewrite C in *. repeat split; assumption.
    + match goal with
      | |- context [serve upstream rest ?a] => set (app1 := a)
      end.
      destruct (IH app1 s eq_refl) as (s' & I1 & I2 & I3 & I4 & I5).
      exists s'. repeat split; assumption.
Qed.

(** X18: the discovery proxy over the life of the application.  From
    [lifespan]'s startup on, whatever the environment, the requests served
    and the answers of the upstream endpoint, the service stays registered
    with the configuration of startup; where that is configured it has
    sent upstream exactly one GET for each request with method GET or
    POST, in their order, and otherwise none; its HTTP client exists once
    such a request has reached a configured service, and [lifespan]'s
    shutdown closes it, leaving the service registered. *)
Theorem discovery_one_request_each
        (b64decode_utf8 : string -> option string) (environ : string -> option string)
        (app : App) (upstream : Upstream) (requests : list (Request * string)) :
  let cfg := CDPProxyConfig_default environ in
  let started := lifespan_startup b64decode_utf8 environ app in
  let fresh := {| config := cfg; http_client := false; sent := [] |} in
  exists s : Service,
    cdp_service (serve upstream requests started) = Some s /\
    auth_service (serve upstream requests started) = auth_service started /\
    config s = cfg /\
    sent s =
    (if is_configured cfg
     then map (fun r => upstream_request fresh (fst r))
              (filter (fun r => routed (fst r)) requests)
     else []) /\
    http_client s = is_configured cfg && existsb (fun r => routed (fst r)) requests /\
    cdp_service (lifespan_shutdown (serve upstream requests started)) =
    Some {| config := cfg; http_client := false; sent := sent s |}.
Proof.
  cbv zeta.
  destruct (serve_from upstream requests (lifespan_startup b64decode_utf8 environ app)
              {| config := CDPProxyConfig_default environ; http_client := false;
                 sent := [] |} eq_refl)
    as (s' & I1 & I2 & I3 & I4 & I5).
  exists s'. cbn [config sent http_client List.app orb] in *.
  repeat split; try assumption.
  unfold lifespan_shutdown, cdp_shutdown. cbn [cdp_service]. rewrite I1.
  cbn [option_map]. unfold close. now rewrite I3.
Qed.

End Lifecycle.

(** ** The logging switch *)

Section LoggingSwitch.
Import PyStr Cdp.







End LoggingSwitch.
